(** * Machine Vision Toolbox: image reshaping and annotation drawing

A shallow embedding of [machinevisiontoolbox/base/graphics.py]
([draw_box], [draw_labelbox], [draw_text], [draw_point]) and of
[machinevisiontoolbox/ImageReshape.py] ([hcat], [Tile], [scale],
[samesize], [rotate]).

Conventions of the embedding:
- Python floats and numpy scalars are rationals ([Q]); Python ints are [Z].
- A Python call either returns, raises, or does not terminate ([outcome]).
- Calls into OpenCV are recorded, in order, in a call log, so a function
  of the toolbox is a value of [M A = outcome A * list cv_call].
- What OpenCV computes for pixel values (interpolation, rotation matrix
  entries) is left abstract as section variables; the shape of what it
  returns follows the OpenCV documentation. *)

From Stdlib Require Import ZArith QArith Qround List String Bool Lia.
Import ListNotations.

Open Scope Z_scope.

(* ===================================================================== *)
(** * Python values and control *)
(* ===================================================================== *)

Module Py.

(** The built-in exceptions the two source files can raise. *)
Inductive exn : Set :=
  | ValueError
  | TypeError
  | NameError
  | UnboundLocalError
  | AttributeError
  | IndexError
  | KeyError
  | ZeroDivisionError.

Inductive outcome (A : Type) : Type :=
  | Returns (a : A)
  | Raises (e : exn)
  | Diverges.

Arguments Returns {A} a.
Arguments Raises {A} e.
Arguments Diverges {A}.

Definition Qlt_bool (a b : Q) : bool := negb (Qle_bool b a).

Definition Qmax (a b : Q) : Q := if Qle_bool a b then b else a.

(** [int(x)] on a float truncates towards zero. *)
Definition py_int (x : Q) : Z := Z.quot (Qnum x) (Z.pos (Qden x)).

(** Round half to even: Python 3's [round] and OpenCV's [cvRound]. *)
Definition round_half_even (x : Q) : Z :=
  let f := Qfloor x in
  let r := (x - inject_Z f)%Q in
  if Qlt_bool r (1 # 2) then f
  else if Qlt_bool (1 # 2) r then f + 1
  else if Z.even f then f else f + 1.

(** Normalisation of one bound of a slice over a sequence of length [n]:
    a negative bound counts from the end, and the result is clamped. *)
Definition slice_bound (n i : Z) : Z :=
  if i <? 0 then Z.max (i + n) 0 else Z.min i n.

(** A slice [start:stop] with step 1; [None] is an omitted bound. *)
Record slice : Set := { start : option Z; stop : option Z }.

Definition full : slice := {| start := None; stop := None |}.
Definition range (a b : Z) : slice := {| start := Some a; stop := Some b |}.

(** First selected index and number of selected indices. *)
Definition slice_indices (n : nat) (s : slice) : nat * nat :=
  let lo := match start s with
            | None => 0
            | Some i => slice_bound (Z.of_nat n) i
            end in
  let hi := match stop s with
            | None => Z.of_nat n
            | Some i => slice_bound (Z.of_nat n) i
            end in
  (Z.to_nat lo, Z.to_nat (hi - lo)).

(** Colour arguments are dynamically typed: [None], an int (grey level),
    a colour name, or a sequence of components. *)
Inductive pycolor : Set :=
  | ColNone
  | ColInt (v : Z)
  | ColStr (name : string)
  | ColSeq (components : list Q).

Definition isinstance_int (c : pycolor) : bool :=
  match c with ColInt _ => true | _ => false end.

Definition is_None (c : pycolor) : bool :=
  match c with ColNone => true | _ => false end.

End Py.

Import Py.

(* ===================================================================== *)
(** * numpy arrays and the OpenCV interface *)
(* ===================================================================== *)

(** An image array: [shape = (rows, cols)] when [planes = None] and
    [(rows, cols, p)] when [planes = Some p]; [px r c k] is the element at
    row [r], column [c], plane [k]. *)
Record ndarray : Type := {
  dtype : string;
  planes : option nat;
  rows : nat;
  cols : nat;
  px : nat -> nat -> nat -> Q
}.

Definition ndim (a : ndarray) : Z :=
  match planes a with None => 2 | Some _ => 3 end.

Definition shape (a : ndarray) : list Z :=
  match planes a with
  | None => [Z.of_nat (rows a); Z.of_nat (cols a)]
  | Some p => [Z.of_nat (rows a); Z.of_nat (cols a); Z.of_nat p]
  end.

Definition matrix : Type := list (list Q).

Module Cv.

Definition INTER_LINEAR : Z := 1.
Definition INTER_CUBIC : Z := 2.
Definition INTER_AREA : Z := 3.
Definition FONT_HERSHEY_SIMPLEX : Z := 0.

(** One entry of the call log per call into OpenCV. *)
Inductive cv_call : Type :=
  | Resize (src : ndarray) (fx fy : Q) (interpolation : Z)
  | GetRotationMatrix2D (centre : list Q) (angle scale : Q)
  | WarpAffine (src : ndarray) (m : matrix) (dsize : Z * Z)
  | Rectangle (img : ndarray) (pt1 pt2 : Z * Z) (color : pycolor)
              (thickness : Z)
  | GetTextSize (text : string) (font : Z) (fontscale : Q) (thickness : Z)
  | PutText (img : ndarray) (text : option string) (org : Q * Q) (font : Z)
            (fontscale : Q) (color : pycolor) (thickness : Z).

(** The calls that write into the array they are given. *)
Definition draws (c : cv_call) : bool :=
  match c with
  | Rectangle _ _ _ _ _ | PutText _ _ _ _ _ _ _ => true
  | _ => false
  end.

End Cv.

Import Cv.

(** ** The effect monad: an outcome and the OpenCV calls made so far *)

Definition M (A : Type) : Type := outcome A * list cv_call.

Definition ret {A} (a : A) : M A := (Returns a, []).
Definition raise {A} (e : exn) : M A := (Raises e, []).
Definition call (c : cv_call) : M unit := (Returns tt, [c]).

Definition bind {A B} (m : M A) (k : A -> M B) : M B :=
  match m with
  | (Returns a, t) => let (r, t') := k a in (r, t ++ t')
  | (Raises e, t) => (Raises e, t)
  | (Diverges, t) => (Diverges, t)
  end.

Declare Scope py_scope.
Delimit Scope py_scope with py.
Notation "x <- m ;; k" := (bind m (fun x => k))
  (at level 61, m at next level, right associativity) : py_scope.
Notation "' pat <- m ;; k" := (bind m (fun x => match x with pat => k end))
  (at level 61, pat pattern, m at next level, right associativity) : py_scope.
Notation "m ;;; k" := (bind m (fun _ => k))
  (at level 61, right associativity) : py_scope.
Open Scope py_scope.

Definition result {A} (m : M A) : outcome A := fst m.
Definition log {A} (m : M A) : list cv_call := snd m.

(* ===================================================================== *)
(** * base/graphics.py *)
(* ===================================================================== *)

Module Graphics.

Definition point : Set := (Q * Q)%type.
Definition ipoint : Set := (Z * Z)%type.

(** The arguments of [draw_box] after [image]; an omitted argument or an
    explicit [None] is [None] here.  [bbox] is the 2x2 matrix
    [[xmin, xmax], [ymin, ymax]], held row by row. *)
Record box_args : Set := {
  bbox : option ((Q * Q) * (Q * Q));
  bl : option point;
  tl : option point;
  br : option point;
  tr : option point;
  wh : option (Q * Q);
  centre : option point;
  color : pycolor;
  fillcolor : pycolor;
  alpha : option Q;
  thickness : Z
  }.

(** The keyword dictionary [**kwargs] that [draw_labelbox] forwards to
    [draw_box]: a key is either absent ([None]) or bound. *)
Record box_kwargs : Set := {
  kw_bbox : option ((Q * Q) * (Q * Q));
  kw_bl : option point;
  kw_tl : option point;
  kw_br : option point;
  kw_tr : option point;
  kw_wh : option (Q * Q);
  kw_centre : option point;
  kw_color : option pycolor;
  kw_fillcolor : option pycolor;
  kw_alpha : option Q;
  kw_thickness : option Z
  }.

Definition default {A} (d : A) (o : option A) : A :=
  match o with Some a => a | None => d end.

(** [draw_box(image, **kwargs)]: every absent key takes the default of
    the signature. *)
Definition apply_kwargs (k : box_kwargs) : box_args :=
  {| bbox := kw_bbox k; bl := kw_bl k; tl := kw_tl k; br := kw_br k;
     tr := kw_tr k; wh := kw_wh k; centre := kw_centre k;
     color := default ColNone (kw_color k);
     fillcolor := default ColNone (kw_fillcolor k);
     alpha := kw_alpha k;
     thickness := default 1 (kw_thickness k) |}.

(** The guard that opens every drawing function. *)
Definition grey_guard (c : pycolor) (image : ndarray) : bool :=
  negb (isinstance_int c) && (ndim image =? 2).

(** The values of the variables [bl] and [tr] after the [if]/[elif]
    chain of [draw_box] (lines 58-84), before the conversion to int.
    When no branch applies both keep the value they were passed. *)
Definition box_corners (a : box_args) : option point * option point :=
  match bbox a with
  | Some ((b00, b01), (b10, b11)) => (Some (b00, b10), Some (b01, b11))
  | None =>
    match bl a, tl a, tr a, wh a, centre a with
    | Some p, None, None, Some (w, h), None =>            (* bl + wh *)
        (Some p, Some (fst p + w, snd p + h)%Q)
    | Some p, None, Some q, None, None =>                 (* bl + tr *)
        (Some p, Some q)
    | None, None, None, Some (w, h), Some c =>            (* centre + wh *)
        (Some (fst c - w / 2, snd c - h / 2)%Q,
         Some (fst c + w / 2, snd c + h / 2)%Q)
    | None, None, Some q, Some (w, h), None =>            (* tr + wh *)
        (Some (fst q - w, snd q - h)%Q, Some q)
    | None, Some p, None, Some (w, h), None =>            (* tl + wh *)
        (Some (fst p, snd p - h)%Q, Some (fst p + w, snd p)%Q)
    | b, _, t, _, _ => (b, t)
    end
  end.





(** [int] applied to both coordinates of a corner. *)
Definition truncated (p : point) : ipoint := (py_int (fst p), py_int (snd p)).

(** [tuple([int(x) for x in p])]; iterating over [None] is a TypeError. *)
Definition int_tuple (p : option point) : M ipoint :=
  match p with
  | None => raise TypeError
  | Some p => ret (truncated p)
  end.

(** [len(color)]: an int has no length. *)
Definition py_len (c : pycolor) : M Z :=
  match c with
  | ColSeq l => ret (Z.of_nat (List.length l))
  | ColStr s => ret (Z.of_nat (String.length s))
  | ColInt _ | ColNone => raise TypeError
  end.

(** [color[::-1]] *)
Definition reversed (c : pycolor) : pycolor :=
  match c with
  | ColSeq l => ColSeq (List.rev l)
  | ColStr s => ColStr (string_of_list_ascii (List.rev (list_ascii_of_string s)))
  | c => c
  end.

(** Python values that can be bound to a name in a frame. *)
Inductive pyval : Type :=
  | VNone
  | VInt (v : Z)
  | VFloat (v : Q)
  | VStr (s : string)
  | VColor (c : pycolor)
  | VArray (a : ndarray)
  | VKwargs (k : box_kwargs)
  | VObject (name : string).

Definition as_color (v : pyval) : pycolor :=
  match v with
  | VInt z => ColInt z
  | VStr s => ColStr s
  | VColor c => c
  | _ => ColNone
  end.

Definition namespace : Type := list (string * pyval).

Fixpoint lookup (ns : namespace) (n : string) : option pyval :=
  match ns with
  | [] => None
  | (k, v) :: ns' => if String.eqb k n then Some v else lookup ns' n
  end.

(** The names bound at module level by graphics.py: its imports and its
    function definitions. *)
Definition module_globals : namespace :=
  map (fun n => (n, VObject n))
      ["cv"; "base"; "ANSITable"; "Column"; "color_bgr"; "plt"; "np";
       "draw_box"; "plot_labelbox"; "draw_labelbox"; "draw_text";
       "draw_point"]%string.

(** The built-in names the module uses; Python has no built-in named
    [color]. *)
Definition builtins : namespace :=
  map (fun n => (n, VObject n))
      ["isinstance"; "int"; "str"; "len"; "tuple"; "list"; "dict";
       "round"; "enumerate"; "zip"; "TypeError"]%string.

(** Reading a name inside a function body: the frame's locals, then the
    module's globals, then the built-ins; otherwise NameError. *)
Definition load_name (locals : namespace) (n : string) : M pyval :=
  match lookup locals n with
  | Some v => ret v
  | None =>
    match lookup module_globals n with
    | Some v => ret v
    | None =>
      match lookup builtins n with
      | Some v => ret v
      | None => raise NameError
      end
    end
  end.

(** The [pos] argument of [draw_point]. *)
Inductive coord : Set :=
  | Scalar (x : Q)
  | Sequence (xs : list Q).

Inductive pos_arg : Set :=
  | PosArray2 (xs ys : list Q)        (* ndarray of shape (2, n) *)
  | PosArrayOther                     (* ndarray with shape[0] != 2 *)
  | PosPairs (l : list (Q * Q))       (* tuple/list of 2-sequences *)
  | PosXY (x y : coord)               (* other tuple/list: pos[0], pos[1] *)
  | PosOther.                         (* neither ndarray nor tuple/list *)

Section Externals.

(** [machinevisiontoolbox.base.color_bgr], not part of these files. *)
Variable color_bgr : string -> pycolor.
(** What [cv.getTextSize] returns: [((w, h), baseline)]. *)
Variable text_size : string -> Z -> Q -> Z -> (Z * Z) * Z.
(** [str.format] with one positional argument. *)
Variable format : string -> nat -> string.

Definition named_color (c : pycolor) : pycolor :=
  match c with ColStr s => color_bgr s | c => c end.

(** The colour on which [draw_box] evaluates [len(color)], lines 86-92:
    the fill colour when one is given, looked up by name when it is a
    string. *)
Definition drawn_color (a : box_args) : pycolor :=
  named_color (if is_None (fillcolor a) then color a else fillcolor a).

(** [draw_box], lines 9-98. *)
Definition draw_box (image : ndarray) (a : box_args) : M (ipoint * ipoint) :=
  if grey_guard (color a) image then raise TypeError else
  let '(bl, tr) := box_corners a in
  let '(color, thickness) :=
    if is_None (fillcolor a) then (color a, thickness a)
    else (fillcolor a, -1) in
  let color := named_color color in
  color <- (if is_None color then ret color
            else n <- py_len color ;;
                 ret (if n =? 3 then reversed color else color)) ;;
  bl <- int_tuple bl ;;
  tr <- int_tuple tr ;;
  call (Rectangle image bl tr color thickness) ;;;
  ret (bl, tr).

(** [draw_text], lines 170-198. *)
Definition draw_text (image : ndarray) (pos : point) (text : option string)
    (color : pycolor) (font : Z) (fontsize : Q) (fontthickness : Z)
    : M unit :=
  if grey_guard color image then raise TypeError else
  let color := named_color color in
  call (PutText image text pos font fontsize color fontthickness).

(** [zip(x, y)]: both operands must be iterable. *)
Definition py_zip (x y : option coord) : M (list (Q * Q)) :=
  match x, y with
  | None, _ | _, None => raise UnboundLocalError
  | Some (Sequence xs), Some (Sequence ys) => ret (combine xs ys)
  | Some _, Some _ => raise TypeError
  end.

Fixpoint mark_points (image : ndarray) (marker : string)
    (text : option string) (color : pycolor) (font : Z) (fontsize : Q)
    (fontthickness : Z) (i : nat) (pts : list (Q * Q)) : M unit :=
  match pts with
  | [] => ret tt
  | xy :: rest =>
      let s := match text with
               | None | Some EmptyString => marker
               | Some t => (marker ++ " " ++ format t i)%string
               end in
      call (PutText image (Some s) xy font fontsize color fontthickness) ;;;
      mark_points image marker text color font fontsize fontthickness
                  (S i) rest
  end.

(** [draw_point], lines 200-252. *)
Definition draw_point (image : ndarray) (pos : pos_arg) (marker : string)
    (text : option string) (color : pycolor) (font : Z) (fontsize : Q)
    (fontthickness : Z) : M unit :=
  if grey_guard color image then raise TypeError else
  let '(x, y) :=
    match pos with
    | PosArray2 xs ys => (Some (Sequence xs), Some (Sequence ys))
    | PosPairs l => (Some (Sequence (map fst l)), Some (Sequence (map snd l)))
    | PosXY x y => (Some x, Some y)
    | PosArrayOther | PosOther => (None, None)
    end in
  let color := named_color color in
  pts <- py_zip x y ;;
  mark_points image marker text color font fontsize fontthickness 0 pts.

(** [kwargs['color']] *)
Definition kwargs_color (k : box_kwargs) : M pycolor :=
  match kw_color k with
  | Some c => ret c
  | None => raise KeyError
  end.

(** [draw_labelbox], lines 126-168.  Its parameters are [image], [text],
    [textcolor], [font], [fontsize], [fontthickness] and [**kwargs];
    these are the only local names of its frame. *)
Definition draw_labelbox (image : ndarray) (text : string)
    (textcolor : pycolor) (font : Z) (fontsize : Q) (fontthickness : Z)
    (kwargs : box_kwargs) : M unit :=
  let locals : namespace :=
    [("image", VArray image); ("text", VStr text);
     ("textcolor", VColor textcolor); ("font", VInt font);
     ("fontsize", VFloat fontsize); ("fontthickness", VInt fontthickness);
     ("kwargs", VKwargs kwargs)]%string in
  color <- load_name locals "color" ;;
  if grey_guard (as_color color) image then raise TypeError else
  call (GetTextSize text font fontsize fontthickness) ;;;
  let twh := text_size text font fontsize fontthickness in
  '(bl, tr) <- draw_box image (apply_kwargs kwargs) ;;
  let h := round_half_even (inject_Z (snd (fst twh)) / 2) in
  let h2 := round_half_even (inject_Z (snd (fst twh)) / 4) in
  fill <- kwargs_color kwargs ;;
  draw_box image
    {| bbox := None; bl := None;
       tl := Some (inject_Z (fst bl), inject_Z (snd bl));
       br := None; tr := None;
       wh := Some (inject_Z (fst (fst twh) + h),
                   inject_Z (snd (fst twh) + h));
       centre := None; color := ColNone; fillcolor := fill;
       alpha := None; thickness := 1 |} ;;;
  draw_text image (inject_Z (fst bl + h2), inject_Z (snd bl - h2))
            (Some text) textcolor font fontsize fontthickness.

End Externals.

(** ** [plot_labelbox], lines 101-123 *)

Section Matplotlib.

(** Calling a Python object with arguments, and reading an attribute of
    one; both belong to matplotlib and to the objects it returns. *)
Variable invoke : pyval -> list pyval -> M pyval.
Variable get_attr : pyval -> string -> M pyval.

(** [plot_labelbox]: its frame holds [text], [textcolor] and [kwargs]; the
    names [plot_box] and [plot_text] are read from the enclosing scopes. *)
Definition plot_labelbox (text : string) (textcolor : pycolor)
    (kwargs : box_kwargs) : M unit :=
  let locals : namespace :=
    [("text", VStr text); ("textcolor", VColor textcolor);
     ("kwargs", VKwargs kwargs)]%string in
  plot_box <- load_name locals "plot_box" ;;
  rect <- invoke plot_box [VKwargs kwargs] ;;
  get_bbox <- get_attr rect "get_bbox" ;;
  bbox <- invoke get_bbox [] ;;
  plot_text <- load_name locals "plot_text" ;;
  xmin <- get_attr bbox "xmin" ;;
  ymin <- get_attr bbox "ymin" ;;
  face <- kwargs_color kwargs ;;
  invoke plot_text [xmin; ymin; VStr text; VColor textcolor; VStr "bottom";
                    VColor face] ;;;
  ret tt.

End Matplotlib.

End Graphics.


(* ===================================================================== *)
(** * ImageReshape.py *)
(* ===================================================================== *)

Module ImageReshape.

(** Modelled from the spec: the [Image] class that [ImageReshapeMixin] is
    mixed into is not part of these files.  An image object wraps its pixel
    array ([A], also read as [image]) and a colour order; [height], [width],
    [shape] and [dtype] are those of the array, and [cls(a, colororder=co)]
    wraps [a]. *)
Record Image : Type := {
  A : ndarray;
  colororder : option string
}.

Definition image (im : Image) : ndarray := A im.
Definition height (im : Image) : Z := Z.of_nat (rows (A im)).
Definition width (im : Image) : Z := Z.of_nat (cols (A im)).
Definition im_shape (im : Image) : list Z := shape (A im).
Definition im_dtype (im : Image) : string := dtype (A im).
Definition new_image (a : ndarray) (co : option string) : Image :=
  {| A := a; colororder := co |}.

(** ** numpy *)

(** [np.empty(shape=(r, c))]; the element type defaults to float64. *)
Definition np_empty (r c : nat) : ndarray :=
  {| dtype := "float64"; planes := None; rows := r; cols := c;
     px := fun _ _ _ => 0%Q |}.

(** [np.pad(a, ((top, bottom), (left, right)), constant_values=(before, after))]
    on a 2-D array.  The pair [constant_values] is (before, after) for every
    axis: the rows added above and the columns added on the left hold
    [before], those added below and on the right hold [after].  Axis 0 is
    padded first, then axis 1 over the full new height. *)
Definition np_pad (a : ndarray) (pad_width : (Z * Z) * (Z * Z))
    (constant_values : Q * Q) : M ndarray :=
  let '((top, bottom), (left_, right_)) := pad_width in
  let '(before, after) := constant_values in
  match planes a with
  | Some _ => raise ValueError
  | None =>
    if (top <? 0) || (bottom <? 0) || (left_ <? 0) || (right_ <? 0)
    then raise ValueError
    else
      let t := Z.to_nat top in
      let l := Z.to_nat left_ in
      ret {| dtype := dtype a; planes := None;
             rows := t + rows a + Z.to_nat bottom;
             cols := l + cols a + Z.to_nat right_;
             px := fun i j k =>
                     if Nat.ltb j l then before
                     else if Nat.leb (l + cols a) j then after
                     else if Nat.ltb i t then before
                     else if Nat.leb (t + rows a) i then after
                     else px a (i - t) (j - l) k |}
  end.

Definition same_planes (a b : ndarray) : bool :=
  match planes a, planes b with
  | None, None => true
  | Some p, Some q => Nat.eqb p q
  | _, _ => false
  end.

Section Numpy.

(** numpy's type promotion for the element types of two arrays. *)
Variable result_type : string -> string -> string.

(** [np.hstack((a, b))]: concatenation along axis 1; the arrays must agree
    in every other dimension. *)
Definition np_hstack (a b : ndarray) : M ndarray :=
  if same_planes a b && Nat.eqb (rows a) (rows b) then
    ret {| dtype := result_type (dtype a) (dtype b); planes := planes a;
           rows := rows a; cols := cols a + cols b;
           px := fun i j k =>
                   if Nat.ltb j (cols a) then px a i j k
                   else px b i (j - cols a) k |}
  else raise ValueError.

(** ** [hcat], lines 38-59 *)

(** The positional arguments: either the images themselves or one
    tuple/list of images. *)
Inductive hcat_pos : Type :=
| Varargs (images : list Image)
| Listed (images : list Image).

(** [max(l)] of a list of ints. *)
Definition py_max (l : list Z) : M Z :=
  match l with
  | [] => raise ValueError
  | x :: xs => ret (fold_left Z.max xs x)
  end.

(** The body of the [for] loop, lines 51-57, over the remaining images. *)
Fixpoint hcat_loop (height_ : Z) (pad : Q) (images : list Image)
    (combo : ndarray) (u : list Z) : M (ndarray * list Z) :=
  match images with
  | [] => ret (combo, u)
  | im :: rest =>
      arr <- (if height im <? height_
              then np_pad (image im) ((0, height_ - height im), (0, 0)) (pad, 0%Q)
              else ret (image im)) ;;
      let u := u ++ [Z.of_nat (cols combo)] in
      combo <- np_hstack combo arr ;;
      hcat_loop height_ pad rest combo u
  end.

Definition hcat (pos : hcat_pos) (pad : Q) : M (Image * list Z) :=
  images <- match pos with
            | Varargs [] => raise IndexError
            | Varargs l | Listed l => ret l
            end ;;
  height_ <- py_max (map height images) ;;
  let combo := np_empty (Z.to_nat height_) 0 in
  '(combo, u) <- hcat_loop height_ pad images combo [] ;;
  ret (new_image combo None, u).

End Numpy.

(** The running sums of the widths [ws], starting from [from]: the column
    at which each image starts in the concatenation. *)
Fixpoint offsets (from : Z) (ws : list Z) : list Z :=
  match ws with
  | [] => []
  | x :: rest => from :: offsets (from + x) rest
  end.

Definition sum_widths (images : list Image) : Z :=
  fold_right Z.add 0 (map width images).

Definition greyscale (im : Image) : Prop := planes (A im) = None.

(** [pad], lines 100-105: the sibling that pads with one value all round. *)
Definition pad (self : Image) (left_ right_ top bottom : Z) (value : Q) : M Image :=
  a <- np_pad (image self) ((top, bottom), (left_, right_)) (value, value) ;;
  ret (new_image a None).

(** ** [Tile], lines 61-98 *)

(** Modelled from the spec: [Image.Constant], [Image.colorize] and
    [Image.paste] are not part of these files.  [Constant(w, h, value, dtype)]
    is a canvas of width [w] and height [h] filled with [value];
    [colorize(colororder)] gives it colour planes; and
    [paste(im, (u, v), 'set', 'topleft')] writes [im] into the canvas with
    its top-left corner at column [u], row [v].  The canvas records each
    paste, in order. *)
Record canvas : Type := {
  canvas_width : Z;
  canvas_height : Z;
  canvas_value : Q;
  canvas_dtype : string;
  canvas_colororder : option (option string);
  pasted : list (Image * (Z * Z))
}.

Definition Constant (w h : Z) (value : Q) (dt : string) : canvas :=
  {| canvas_width := w; canvas_height := h; canvas_value := value;
     canvas_dtype := dt; canvas_colororder := None; pasted := [] |}.

Definition colorize (c : canvas) (co : option string) : canvas :=
  {| canvas_width := canvas_width c; canvas_height := canvas_height c;
     canvas_value := canvas_value c; canvas_dtype := canvas_dtype c;
     canvas_colororder := Some co; pasted := pasted c |}.

Definition paste (c : canvas) (im : Image) (at_ : Z * Z) : canvas :=
  {| canvas_width := canvas_width c; canvas_height := canvas_height c;
     canvas_value := canvas_value c; canvas_dtype := canvas_dtype c;
     canvas_colororder := canvas_colororder c;
     pasted := pasted c ++ [(im, at_)] |}.

(** The checks of lines 69-73 over [tiles[1:]]. *)
Fixpoint check_tiles (shape0 : list Z) (dtype0 : string) (rest : list Image)
    : M unit :=
  match rest with
  | [] => ret tt
  | tile :: rest' =>
      if list_eq_dec Z.eq_dec (im_shape tile) shape0 then
        if String.eqb (im_dtype tile) dtype0 then check_tiles shape0 dtype0 rest'
        else raise ValueError
      else raise ValueError
  end.

(** [int(np.ceil(n / columns))] *)
Definition ceil_div (n columns : Z) : M Z :=
  if columns =? 0 then raise ZeroDivisionError
  else ret (- ((- n) / columns)).

(** The [for c in range(columns)] loop of lines 87-94 with [c] iterations
    left: it stops early when [pop(0)] finds the list empty.  It yields the
    list and the canvas as the loop leaves them. *)
Fixpoint tile_row (c : nat) (w sep : Z) (tiles : list Image) (u v : Z)
    (cv : canvas) : list Image * canvas :=
  match c with
  | O => (tiles, cv)
  | S c' =>
      match tiles with
      | [] => (tiles, cv)
      | im :: rest => tile_row c' w sep rest (u + (w + sep)) v (paste cv im (u, v))
      end
  end.

(** The [while len(tiles) > 0] loop of lines 85-95, with a bound on the
    number of iterations. *)
Fixpoint tile_rows (fuel : nat) (columns h w sep : Z) (tiles : list Image)
    (v : Z) (cv : canvas) : M (canvas * list Image) :=
  match tiles with
  | [] => ret (cv, tiles)
  | _ :: _ =>
      match fuel with
      | O => (Diverges, [])
      | S fuel' =>
          let '(tiles', cv') := tile_row (Z.to_nat columns) w sep tiles sep v cv in
          tile_rows fuel' columns h w sep tiles' (v + (h + sep)) cv'
      end
  end.

(** [Tile] returns the canvas; the second component is the content of the
    caller's list object [tiles] when the call returns.  Every iteration of
    the [while] loop that removes a tile shortens the list, so
    [length tiles] iterations are enough whenever the loop ends at all. *)
Definition Tile (tiles : list Image) (columns sep : Z) (bgcolor : Q)
    : M (canvas * list Image) :=
  match tiles with
  | [] => raise IndexError
  | tile0 :: rest =>
      let shape_ := im_shape tile0 in
      let colororder_ := colororder tile0 in
      check_tiles shape_ (im_dtype tile0) rest ;;;
      nrows <- ceil_div (Z.of_nat (List.length tiles)) columns ;;
      let h := nth 0 shape_ 0 in
      let w := nth 1 shape_ 0 in
      let cv := Constant (columns * w + (columns + 1) * sep)
                         (nrows * h + (nrows + 1) * sep)
                         bgcolor (im_dtype tile0) in
      let cv := if Z.of_nat (List.length shape_) =? 3
                then colorize cv colororder_ else cv in
      tile_rows (List.length tiles) columns h w sep tiles sep cv
  end.

(** *** The grid the tiles are laid on *)

(** Top-left corner (column, row) of tile number [i], counting from 0 in
    reading order, on a grid of [columns] columns of cells [w] by [h]
    separated by [sep]. *)
Definition tile_position (columns h w sep : Z) (i : Z) : Z * Z :=
  (sep + (i mod columns) * (w + sep), sep + (i / columns) * (h + sep)).

(** The tiles with their positions, the first one being number [k]. *)
Fixpoint place (columns h w sep : Z) (k : Z) (tiles : list Image)
    : list (Image * (Z * Z)) :=
  match tiles with
  | [] => []
  | t :: rest =>
      (t, tile_position columns h w sep k) :: place columns h w sep (k + 1) rest
  end.

(** A canvas with further pastes recorded. *)
Definition add_pastes (c : canvas) (l : list (Image * (Z * Z))) : canvas :=
  {| canvas_width := canvas_width c; canvas_height := canvas_height c;
     canvas_value := canvas_value c; canvas_dtype := canvas_dtype c;
     canvas_colororder := canvas_colororder c;
     pasted := pasted c ++ l |}.

(** All tiles are greyscale of shape (h, w) and of one element type. *)
Definition uniform (h w : Z) (dt : string) (tiles : list Image) : Prop :=
  Forall (fun t => im_shape t = [h; w] /\ im_dtype t = dt) tiles.

(** ** [scale], [samesize] and [rotate] *)

(** A numeric argument as [smb.isscalar] sees it. *)
Inductive num_arg : Set :=
| Num (x : Q)
| NotScalar.

(** The [interpolation] argument of [scale]. *)
Inductive interp_arg : Set :=
| InterpNone
| InterpStr (s : string)
| InterpOther.

(** During [samesize] the variable [o] is first an [Image] and, once the
    row trim has run, the bare array that the slice returned. *)
Inductive pyobj : Type :=
| OImage (im : Image)
| OArray (a : ndarray).

(** Attribute reads on [o]: an ndarray has none of [width], [image]. *)
Definition get_width (o : pyobj) : M Z :=
  match o with
  | OImage im => ret (width im)
  | OArray _ => raise AttributeError
  end.

Definition get_image (o : pyobj) : M ndarray :=
  match o with
  | OImage im => ret (image im)
  | OArray _ => raise AttributeError
  end.

(** [a[s0, s1, s2]]: three indices need a 3-D array. *)
Definition index3 (a : ndarray) (s0 s1 s2 : slice) : M ndarray :=
  match planes a with
  | None => raise IndexError
  | Some p =>
      let '(r0, nr) := slice_indices (rows a) s0 in
      let '(c0, nc) := slice_indices (cols a) s1 in
      let '(p0, np) := slice_indices p s2 in
      ret {| dtype := dtype a; planes := Some np; rows := nr; cols := nc;
             px := fun i j k => px a (r0 + i) (c0 + j) (p0 + k) |}
  end.

(** A centre that passes the check of lines 375-378. *)
Definition valid_centre (centre : option (list Q)) : Prop :=
  match centre with
  | None => True
  | Some c => List.length c = 2%nat
  end.

Section OpenCV.

(** Pixel values computed by [cv.resize] and [cv.warpAffine], the matrix
    computed by [cv.getRotationMatrix2D], and [np.degrees]. *)
Variable resample : ndarray -> Q -> Q -> Z -> nat -> nat -> nat -> Q.
Variable warp : ndarray -> matrix -> Z * Z -> nat -> nat -> nat -> Q.
Variable rotation_matrix : list Q -> Q -> Q -> matrix.
Variable degrees : Q -> Q.
(** [Image.smooth], not part of these files. *)
Variable smooth : Image -> Q -> Image.

(** [cv.resize(src, None, fx=fx, fy=fy, interpolation=i)]: the output has
    [round(fx * cols)] columns and [round(fy * rows)] rows and the type of
    [src]. *)
Definition cv_resize (src : ndarray) (fx fy : Q) (interpolation : Z)
    : M ndarray :=
  call (Resize src fx fy interpolation) ;;;
  ret {| dtype := dtype src; planes := planes src;
         rows := Z.to_nat (round_half_even (fy * inject_Z (Z.of_nat (rows src))));
         cols := Z.to_nat (round_half_even (fx * inject_Z (Z.of_nat (cols src))));
         px := resample src fx fy interpolation |}.

Definition cv_getRotationMatrix2D (centre : list Q) (angle scale_ : Q)
    : M matrix :=
  call (GetRotationMatrix2D centre angle scale_) ;;;
  ret (rotation_matrix centre angle scale_).

(** [cv.warpAffine(src, M, dsize)]: the output has size [dsize], given as
    (width, height), and the type of [src]. *)
Definition cv_warpAffine (src : ndarray) (m : matrix) (dsize : Z * Z)
    : M ndarray :=
  call (WarpAffine src m dsize) ;;;
  ret {| dtype := dtype src; planes := planes src;
         rows := Z.to_nat (snd dsize); cols := Z.to_nat (fst dsize);
         px := warp src m dsize |}.

(** [scale], lines 221-277. *)
Definition scale (self : Image) (sfactor : num_arg) (outsize : option (Z * Z))
    (sigma : option Q) (interpolation : interp_arg) : M Image :=
  match sfactor with
  | NotScalar => raise TypeError
  | Num f =>
      interp <- match interpolation with
                | InterpNone =>
                    ret (if Qlt_bool 1 f then INTER_CUBIC else INTER_CUBIC)
                | InterpStr s =>
                    if String.eqb s "cubic" then ret INTER_CUBIC
                    else if String.eqb s "linear" then ret INTER_LINEAR
                    else if String.eqb s "area" then ret INTER_AREA
                    else raise ValueError
                | InterpOther => raise TypeError
                end ;;
      let im := match sigma with
                | Some sg => if Qlt_bool f 1 then smooth self sg else self
                | None => self
                end in
      out <- cv_resize (image im) f f interp ;;
      ret (new_image out (colororder self))
  end.

(** [d1 = max(1, int(np.floor(d * bias)))] *)
Definition trim_before (d : Z) (bias : Q) : Z :=
  Z.max 1 (Qfloor (inject_Z d * bias)).

(** [samesize], lines 170-219.  The local [out] is bound only by the column
    trim; [None] below stands for the unbound name. *)
Definition samesize (self im2 : Image) (bias : Q) : M Image :=
  if Qlt_bool bias 0 || Qlt_bool 1 bias then raise ValueError else
  let im := image self in
  let sc_rows := (inject_Z (height im2) / inject_Z (Z.of_nat (rows im)))%Q in
  let sc_cols := (inject_Z (width im2) / inject_Z (Z.of_nat (cols im)))%Q in
  o <- scale self (Num (Qmax sc_rows sc_cols)) None None InterpNone ;;
  o <- (if height o >? width im2 then
          let d := height o - height im2 in
          let d1 := trim_before d bias in
          let d2 := d - d1 in
          a <- index3 (image o) (range d1 (- d2)) full full ;;
          ret (OArray a)
        else ret (OImage o)) ;;
  w <- get_width o ;;
  out <- (if w >? width im2 then
            let d := w - width im2 in
            let d1 := trim_before d bias in
            let d2 := d - d1 in
            a <- get_image o ;;
            a' <- index3 a full (range d1 (- d2)) full ;;
            ret (Some a')
          else ret None) ;;
  match out with
  | None => raise UnboundLocalError
  | Some a => ret (new_image a (colororder self))
  end.

(** [rotate], lines 313-385.  [crop] may be any Python object. *)
Definition rotate {C : Type} (self : Image) (angle : num_arg) (crop : C)
    (centre : option (list Q)) : M Image :=
  match angle with
  | NotScalar => raise ValueError
  | Num ang =>
      centre <- match centre with
                | None => ret [inject_Z (width self) / 2; inject_Z (height self) / 2]%Q
                | Some c => if Z.of_nat (List.length c) =? 2 then ret c
                            else raise ValueError
                end ;;
      let shape_ := (width self, height self) in
      m <- cv_getRotationMatrix2D centre (degrees ang) 1 ;;
      out <- cv_warpAffine (A self) m shape_ ;;
      ret (new_image out (colororder self))
  end.

(** The reading of [rotate] as a pure delegation: one rotation matrix for
    the centre (the image centre unless one is given), the angle in degrees
    and scale 1, then one affine warp of the pixel array to the input's
    (width, height), wrapped with the input's colour order. *)
Definition rotate_spec (self : Image) (ang : Q) (centre : option (list Q))
    : Image * list cv_call :=
  let c := match centre with
           | None => [inject_Z (width self) / 2; inject_Z (height self) / 2]%Q
           | Some c => c
           end in
  let m := rotation_matrix c (degrees ang) 1 in
  let dsize := (width self, height self) in
  ({| A := {| dtype := dtype (A self); planes := planes (A self);
              rows := Z.to_nat (height self); cols := Z.to_nat (width self);
              px := warp (A self) m dsize |};
      colororder := colororder self |},
   [GetRotationMatrix2D c (degrees ang) 1; WarpAffine (A self) m dsize]).

End OpenCV.

(** The interpolation names [scale] accepts, lines 259-264. *)
Definition known_interpolation (s : string) : bool :=
  String.eqb s "cubic" || String.eqb s "linear" || String.eqb s "area".

(** ** [trim], [roi] and [affine_warp] *)

(** Modelled from the spec: [Image.iscolor] and [Image.nplanes] are not
    part of these files.  An image is a colour image when its array has a
    third dimension, whose length is its number of planes; a greyscale
    image has one plane. *)
Definition iscolor (im : Image) : bool :=
  match planes (A im) with Some _ => true | None => false end.


(** [a[s0, s1]]: two slices select rows and columns and keep the planes. *)
Definition index2 (a : ndarray) (s0 s1 : slice) : ndarray :=
  let '(r0, nr) := slice_indices (rows a) s0 in
  let '(c0, nc) := slice_indices (cols a) s1 in
  {| dtype := dtype a; planes := planes a; rows := nr; cols := nc;
     px := fun i j k => px a (r0 + i) (c0 + j) k |}.

(** [trim], lines 27-36. *)
Definition trim (self : Image) (left_ right_ top bottom : Z) : M Image :=
  let image_ := A self in
  let y := range top (height self - bottom) in
  let x := range left_ (width self - right_) in
  image_ <- (if iscolor self then index3 image_ y x full
             else ret (index2 image_ y x)) ;;
  ret (new_image image_ (colororder self)).

(** The [reg] argument of [roi]: a 2x2 integer array
    [[umin, umax], [vmin, vmax]], or a list or tuple of integers. *)
Inductive reg_arg : Set :=
| Reg2x2 (r00 r01 r10 r11 : Z)
| RegSeq (l : list Z).

(** The names bound at module level by ImageReshape.py: its imports and
    the class it defines. *)
Definition reshape_globals : list string :=
  ["np"; "sp"; "cv"; "smb"; "meshgrid"; "idisp"; "ImageReshapeMixin"]%string.

(** Reading a module-level name that the function does not bind itself. *)
Definition load_global (n : string) : M unit :=
  if existsb (String.eqb n) reshape_globals then ret tt else raise NameError.

(** The locals [left], [right], [top], [bot] after lines 129-160; [None]
    is a name left unbound. *)
Definition roi_bounds (reg : option reg_arg) (wh : option (list Z))
    : M (option Z * option Z * option Z * option Z) :=
  match reg, wh with
  | Some r, Some _ =>
      (* wh = argcheck.getvector(wh); left, right, top, bottom = reg *)
      load_global "argcheck" ;;;
      match r with
      | RegSeq [r0; r1; r2; _] => ret (Some r0, Some r1, Some r2, None)
      | _ => raise ValueError
      end
  | Some r, None =>
      match r with
      | Reg2x2 r00 r01 r10 r11 => ret (Some r00, Some r01, Some r10, Some r11)
      | RegSeq [_; _] => raise TypeError          (* reg[0, 0] on a list *)
      | RegSeq [r0; r1; r2; r3] => ret (Some r0, Some r1, Some r2, Some r3)
      | RegSeq _ => ret (None, None, None, None)
      end
  | None, _ => raise ValueError
  end.

(** Reading a local that may be unbound. *)
Definition load_local {X} (v : option X) : M X :=
  match v with
  | Some x => ret x
  | None => raise UnboundLocalError
  end.

(** The loop of lines 163-167 over the images that iterating over [self]
    yields; the names are read in the order [top], [bot], [left],
    [right]. *)
Fixpoint roi_loop (bounds : option Z * option Z * option Z * option Z)
    (ims : list Image) : M (list ndarray) :=
  match ims with
  | [] => ret []
  | im :: rest =>
      let '(left_, right_, top, bot) := bounds in
      t <- load_local top ;;
      b <- load_local bot ;;
      l <- load_local left_ ;;
      r <- load_local right_ ;;
      let roi_ := index2 (image im) (range t b) (range l r) in
      out <- roi_loop bounds rest ;;
      ret (roi_ :: out)
  end.

Section Iteration.

(** Modelled from the spec: iterating over an [Image] ([for im in self])
    is not part of these files; [frames self] is the sequence of images it
    yields. *)
Variable frames : Image -> list Image.

(** [roi], lines 108-169.  The result is the list of arrays and the colour
    order that are handed to the constructor. *)
Definition roi (self : Image) (reg : option reg_arg) (wh : option (list Z))
    : M (list ndarray * option string) :=
  bounds <- roi_bounds reg wh ;;
  out <- roi_loop bounds (frames self) ;;
  ret (out, colororder self).

End Iteration.

Section Warping.

(** Pixel values computed by [cv.warpAffine] when flags and a border are
    given. *)
Variable warp_with : ndarray -> matrix -> Z * Z -> Z -> option Z ->
                     option (list Q) -> nat -> nat -> nat -> Q.




End Warping.

End ImageReshape.


(* ===================================================================== *)
(** * Concrete images *)
(* ===================================================================== *)

Module Samples.

Import ImageReshape.

(** A greyscale array from its rows. *)
Definition grey (dt : string) (l : list (list Q)) : ndarray :=
  {| dtype := dt; planes := None;
     rows := List.length l; cols := List.length (hd [] l);
     px := fun i j _ => nth j (nth i l []) 0%Q |}.

(** A colour array of one value. *)
Definition solid (dt : string) (r c p : nat) (v : Q) : ndarray :=
  {| dtype := dt; planes := Some p; rows := r; cols := c;
     px := fun _ _ _ => v |}.

Definition grey_image (l : list (list Q)) : Image :=
  {| A := grey "uint8" l; colororder := None |}.

Definition colour_image (r c : nat) (v : Q) : Image :=
  {| A := solid "uint8" r c 3 v; colororder := Some "RGB"%string |}.

(** Stand-ins for what lies outside the two files, used to run the
    functions on concrete inputs. *)
Definition no_color_bgr (_ : string) : pycolor := ColSeq [0; 0; 0]%Q.
Definition no_format (t : string) (_ : nat) : string := t.
Definition no_resample (_ : ndarray) (_ _ : Q) (_ : Z) (_ _ _ : nat) : Q := 0%Q.
Definition no_warp (_ : ndarray) (_ : matrix) (_ : Z * Z) (_ _ _ : nat) : Q :=
  0%Q.
Definition no_rotation_matrix (_ : list Q) (_ _ : Q) : matrix := [].
Definition no_degrees (x : Q) : Q := x.
Definition no_smooth (im : Image) (_ : Q) : Image := im.

(** A 2x2 greyscale array, a 4x6 colour array, and boxes to draw. *)
Definition grey_2x2 : ndarray := grey "uint8" [[0; 0]; [0; 0]]%Q.
Definition colour_4x6 : ndarray := solid "uint8" 4 6 3 0.

Definition red_box : Graphics.box_args :=
  {| Graphics.bbox := None;
     Graphics.bl := Some (1, 2)%Q; Graphics.tl := None; Graphics.br := None;
     Graphics.tr := None; Graphics.wh := Some (3 # 2, 2)%Q;
     Graphics.centre := None;
     Graphics.color := ColSeq [255; 0; 0]%Q; Graphics.fillcolor := ColNone;
     Graphics.alpha := None; Graphics.thickness := 1 |}.

(** Three 1x1 greyscale tiles. *)
Definition three_tiles : list Image :=
  [grey_image [[1%Q]]; grey_image [[2%Q]]; grey_image [[3%Q]]].

(** A box outlined with a grey level, and a 2x2 greyscale image. *)
Definition grey_level_box : Graphics.box_args :=
  {| Graphics.bbox := None;
     Graphics.bl := Some (0, 0)%Q; Graphics.tl := None; Graphics.br := None;
     Graphics.tr := Some (1, 1)%Q; Graphics.wh := None;
     Graphics.centre := None;
     Graphics.color := ColInt 255; Graphics.fillcolor := ColNone;
     Graphics.alpha := None; Graphics.thickness := 1 |}.

Definition grey_2x2_image : Image := grey_image [[1; 2]; [3; 4]]%Q.


Definition no_warp_with (_ : ndarray) (_ : matrix) (_ : Z * Z) (_ : Z)
    (_ : option Z) (_ : option (list Q)) (_ _ _ : nat) : Q := 0%Q.
Definition one_frame (im : Image) : list Image := [im].
Definition first_type (a _ : string) : string := a.

End Samples.

(* ===================================================================== *)
(** * Facts about the effect monad *)
(* ===================================================================== *)

Import Graphics ImageReshape.

Lemma bind_ret {A B} (a : A) (k : A -> M B) : bind (ret a) k = k a.
Proof. unfold bind, ret. destruct (k a); reflexivity. Qed.

Lemma bind_pure {A B} (a : A) (k : A -> M B) : bind (Returns a, []) k = k a.
Proof. exact (bind_ret a k). Qed.

Lemma bind_returns {A B} (m : M A) (k : A -> M B) (b : B) (t : list cv_call) :
  bind m k = (Returns b, t) ->
  exists a t1 t2, m = (Returns a, t1) /\ k a = (Returns b, t2) /\ t = t1 ++ t2.
Proof.
  destruct m as [[a | e |] t1]; simpl; try discriminate.
  destruct (k a) as [r t2] eqn:E. intros H. inversion H; subst.
  exists a, t1, t2. auto.
Qed.

Lemma result_bind_returns {X Y} (a : X) (t : list cv_call) (k : X -> M Y) :
  result (bind (Returns a, t) k) = result (k a).
Proof. unfold bind, result. destruct (k a). reflexivity. Qed.

(* ===================================================================== *)
(** * graphics.py: the greyscale guard, the missing name, the corners *)
(* ===================================================================== *)

Section GraphicsFacts.

Variable color_bgr : string -> pycolor.
Variable text_size : string -> Z -> Q -> Z -> (Z * Z) * Z.
Variable format : string -> nat -> string.

Lemma grey_guard_true (c : pycolor) (image : ndarray) :
  ndim image = 2 -> isinstance_int c = false -> grey_guard c image = true.
Proof.
  intros Hd Hc. unfold grey_guard. rewrite Hc, Hd. reflexivity.
Qed.

(** C8.  On a greyscale image (a 2-dimensional array) and with a colour
    that is not an int, [draw_box], [draw_text] and [draw_point] each raise
    TypeError, and the call log is empty: nothing was drawn. *)
Theorem draw_guard_raises_TypeError :
  forall (image : ndarray) (a : box_args) (col : pycolor)
         (pos : point) (pts : pos_arg) (text : option string)
         (marker : string) (font : Z) (fontsize : Q) (fontthickness : Z),
    ndim image = 2 ->
    isinstance_int (color a) = false ->
    isinstance_int col = false ->
    draw_box color_bgr image a = (Raises TypeError, []) /\
    draw_text color_bgr image pos text col font fontsize fontthickness
      = (Raises TypeError, []) /\
    draw_point color_bgr format image pts marker text col font fontsize
      fontthickness = (Raises TypeError, []).
Proof.
  intros image a col pos pts text marker font fontsize fontthickness Hd Ha Hc.
  unfold draw_box, draw_text, draw_point.
  rewrite (grey_guard_true _ _ Hd Ha), (grey_guard_true _ _ Hd Hc).
  repeat split; reflexivity.
Qed.

(** C4.  Whatever its arguments, [draw_labelbox] raises NameError before
    any call into OpenCV: [color] is bound neither in its frame nor at
    module level nor as a built-in. *)
Theorem draw_labelbox_raises_NameError :
  forall (image : ndarray) (text : string) (textcolor : pycolor) (font : Z)
         (fontsize : Q) (fontthickness : Z) (kwargs : box_kwargs),
    draw_labelbox color_bgr text_size image text textcolor font fontsize
      fontthickness kwargs = (Raises NameError, []).
Proof.
  intros. unfold draw_labelbox, load_name. reflexivity.
Qed.





End GraphicsFacts.

(* ===================================================================== *)
(** * ImageReshape.py: rotate *)
(* ===================================================================== *)

Section RotateFacts.

Variable warp : ndarray -> matrix -> Z * Z -> nat -> nat -> nat -> Q.
Variable rotation_matrix : list Q -> Q -> Q -> matrix.
Variable degrees : Q -> Q.

Lemma rotate_runs {C : Type} (self : Image) (ang : Q) (crop : C)
    (centre : option (list Q)) :
  valid_centre centre ->
  rotate warp rotation_matrix degrees self (Num ang) crop centre
  = (Returns (fst (rotate_spec warp rotation_matrix degrees self ang centre)),
     snd (rotate_spec warp rotation_matrix degrees self ang centre)).
Proof.
  intros Hc. unfold rotate, rotate_spec.
  destruct centre as [c |]; simpl in *.
  - rewrite Hc. simpl. unfold height, width.
    rewrite !Nat2Z.id. reflexivity.
  - unfold height, width. rewrite !Nat2Z.id. reflexivity.
Qed.

(** C5.  For a scalar angle and a valid centre, [rotate] returns what the
    delegation [rotate_spec] describes and its call log is exactly one
    [getRotationMatrix2D] call (centre defaulting to (width/2, height/2),
    angle in degrees, scale 1) followed by one [warpAffine] call on the
    input's array; no call in the log writes into an array. *)
Theorem rotate_delegates :
  forall (C : Type) (self : Image) (ang : Q) (crop : C)
         (centre : option (list Q)),
    valid_centre centre ->
    let c := match centre with
             | None => [inject_Z (width self) / 2; inject_Z (height self) / 2]%Q
             | Some c => c
             end in
    let m := rotation_matrix c (degrees ang) 1 in
    let run := rotate warp rotation_matrix degrees self (Num ang) crop centre in
    result run
    = Returns (fst (rotate_spec warp rotation_matrix degrees self ang centre)) /\
    log run = [GetRotationMatrix2D c (degrees ang) 1;
               WarpAffine (A self) m (width self, height self)] /\
    forallb (fun call_ => negb (draws call_)) (log run) = true.
Proof.
  intros C self ang crop centre Hc c m run. subst run.
  rewrite (rotate_runs self ang crop centre Hc).
  unfold result, log. simpl. auto.
Qed.


End RotateFacts.

(* ===================================================================== *)
(** * ImageReshape.py: samesize *)
(* ===================================================================== *)

Lemma Qlt_bool_iff (a b : Q) : Qlt_bool a b = true <-> (a < b)%Q.
Proof.
  unfold Qlt_bool. rewrite negb_true_iff.
  split.
  - intros H. apply Qnot_le_lt. intros Hle.
    apply Qle_bool_iff in Hle. congruence.
  - intros H. destruct (Qle_bool b a) eqn:E; [| reflexivity].
    apply Qle_bool_iff in E. exfalso. exact (Qlt_not_le _ _ H E).
Qed.

Section SamesizeFacts.

Variable resample : ndarray -> Q -> Q -> Z -> nat -> nat -> nat -> Q.
Variable smooth : Image -> Q -> Image.

(** The check of lines 195-196. *)
Lemma bias_guard_iff (bias : Q) :
  Qlt_bool bias 0 || Qlt_bool 1 bias = true <-> (bias < 0 \/ 1 < bias)%Q.
Proof.
  rewrite orb_true_iff, !Qlt_bool_iff. reflexivity.
Qed.

(** With no interpolation given, [scale] by a scalar makes one [resize]
    call and returns. *)
Lemma scale_default (self : Image) (f : Q) :
  exists o,
    scale resample smooth self (Num f) None None InterpNone
    = (Returns o, [Resize (image self) f f INTER_CUBIC]) /\
    planes (A o) = planes (A self).
Proof.
  unfold scale. simpl. destruct (Qlt_bool 1 f); simpl;
    eexists; split; reflexivity.
Qed.



Lemma trim_before_bounds (d : Z) (bias : Q) :
  1 <= d -> (bias <= 1)%Q -> 1 <= trim_before d bias <= d.
Proof.
  intros Hd Hb. unfold trim_before.
  assert (Qfloor (inject_Z d * bias) <= d).
  { rewrite <- (Qfloor_Z d) at 2. apply Qfloor_resp_le.
    rewrite <- (Qmult_1_r (inject_Z d)) at 2.
    apply Qmult_le_l; [| exact Hb].
    replace 0%Q with (inject_Z 0) by reflexivity. rewrite <- Zlt_Qlt. lia. }
  lia.
Qed.

(** The column trim on a colour array [n] wide that is [d >= 1] columns
    too wide: the slice [d1:-d2] keeps [n - d] columns when [d2 > 0], and
    none when [d2 = 0], since [-0] is 0. *)
Lemma column_trim_width (a : ndarray) (d : Z) (bias : Q) :
  planes a <> None -> 1 <= d <= Z.of_nat (cols a) -> (bias <= 1)%Q ->
  let d1 := trim_before d bias in
  let d2 := d - d1 in
  exists a',
    index3 a full (range d1 (- d2)) full = (Returns a', []) /\
    rows a' = rows a /\
    Z.of_nat (cols a') = if 0 <? d2 then Z.of_nat (cols a) - d else 0.
Proof.
  intros Hp Hd Hb d1 d2.
  pose proof (trim_before_bounds d bias ltac:(lia) Hb) as Hd1. fold d1 in Hd1.
  unfold index3. destruct (planes a) as [p |]; [| congruence].
  eexists. split; [reflexivity |]. cbn [rows cols]. split.
  - unfold slice_indices, full. cbn. lia.
  - unfold slice_indices, range, slice_bound. cbn [start stop fst snd].
    destruct (Z.ltb_spec 0 d2), (Z.ltb_spec d1 0), (Z.ltb_spec (- d2) 0); lia.
Qed.

(** Every path of [samesize] past the check on [bias], by the size of the
    scaled image [o]:
    - [o.height > im2.width]: the row trim runs; on a greyscale array the
      three-index slice raises IndexError, and on a colour array [o] becomes
      a bare array, whose [width] does not exist (AttributeError);
    - otherwise, [o.width <= im2.width]: nothing binds [out]
      (UnboundLocalError);
    - otherwise, on a colour array, the column trim runs and the call
      returns; the result is as wide as [im2] provided [d2 > 0]. *)
Lemma samesize_paths (self im2 : Image) (bias : Q) :
  (0 <= bias <= 1)%Q ->
  exists o,
    planes (A o) = planes (A self) /\
    let run := samesize resample smooth self im2 bias in
    (width im2 < height o ->
     result run = Raises (match planes (A self) with
                          | None => IndexError
                          | Some _ => AttributeError
                          end)) /\
    (height o <= width im2 -> width o <= width im2 ->
     result run = Raises UnboundLocalError) /\
    (height o <= width im2 -> width im2 < width o -> planes (A self) = None ->
     result run = Raises IndexError) /\
    (height o <= width im2 -> width im2 < width o -> planes (A self) <> None ->
     exists out,
       result run = Returns out /\ height out = height o /\
       width out = if 0 <? (width o - width im2)
                           - trim_before (width o - width im2) bias
                   then width im2 else 0).
Proof.
  intros [Hb0 Hb1].
  assert (Hg : Qlt_bool bias 0 || Qlt_bool 1 bias = false).
  { destruct (_ || _) eqn:E; [| reflexivity].
    apply bias_guard_iff in E as [E | E];
      [exact (False_ind _ (Qlt_not_le _ _ E Hb0))
      | exact (False_ind _ (Qlt_not_le _ _ E Hb1))]. }
  unfold samesize. rewrite Hg.
  destruct (scale_default self
              (Qmax (inject_Z (height im2) / inject_Z (Z.of_nat (rows (image self))))
                    (inject_Z (width im2) / inject_Z (Z.of_nat (cols (image self))))))
    as (o & Hs & Hpo).
  rewrite Hs. clear Hs. exists o. split; [exact Hpo |]. cbv zeta.
  rewrite result_bind_returns. repeat split.
  - intros Hh. apply Z.gtb_lt in Hh. rewrite Hh.
    unfold index3, image. rewrite Hpo.
    destruct (planes (A self)); reflexivity.
  - intros Hh Hw.
    destruct (Z.gtb_spec (height o) (width im2)); [lia |].
    rewrite bind_ret. cbn [get_width]. rewrite bind_ret.
    destruct (Z.gtb_spec (width o) (width im2)); [lia |]. reflexivity.
  - intros Hh Hw Hp.
    destruct (Z.gtb_spec (height o) (width im2)); [lia |].
    rewrite bind_ret. cbn [get_width]. rewrite bind_ret.
    destruct (Z.gtb_spec (width o) (width im2)); [| lia].
    cbn [get_image]. rewrite bind_ret.
    unfold index3, image. rewrite Hpo, Hp. reflexivity.
  - intros Hh Hw Hp.
    destruct (Z.gtb_spec (height o) (width im2)); [lia |].
    rewrite bind_ret. cbn [get_width]. rewrite bind_ret.
    destruct (Z.gtb_spec (width o) (width im2)); [| lia].
    assert (Hp' : planes (image o) <> None) by (unfold image; congruence).
    destruct (column_trim_width (image o) (width o - width im2) bias Hp'
                ltac:(unfold width, image in *; lia) Hb1)
      as (a' & Ha' & Hra' & Hca').
    cbv zeta in Ha'. cbn [get_image]. rewrite bind_ret, Ha', bind_pure, bind_ret.
    eexists. split; [reflexivity |].
    unfold height, width in *. cbn [new_image A]. unfold image in *.
    split; [lia |]. rewrite Hca'.
    destruct (0 <? _); lia.
Qed.


(** C1, at a failing input.  For a 4x4 colour image and an [im2] of the
    same size, with [bias = 1/2], the scale factor is 1, neither trim runs,
    and the [return] reads the unbound local [out]: the call raises
    UnboundLocalError instead of returning an image of the size of [im2]. *)
Theorem samesize_same_size_raises :
  result (samesize resample smooth (Samples.colour_image 4 4 7)
                   (Samples.colour_image 4 4 1) (1 # 2))
  = Raises UnboundLocalError.
Proof. reflexivity. Qed.

End SamesizeFacts.

(** [samesize] run on small colour and greyscale images. *)

Example samesize_trims_columns :
  let run := samesize Samples.no_resample Samples.no_smooth
               (Samples.colour_image 4 8 0) (Samples.colour_image 4 5 0) (1 # 2) in
  exists out, result run = Returns out /\ height out = 4 /\ width out = 5.
Proof. eexists. repeat split. Qed.

Example samesize_one_column_too_wide :
  let run := samesize Samples.no_resample Samples.no_smooth
               (Samples.colour_image 4 6 0) (Samples.colour_image 4 5 0) (1 # 2) in
  exists out, result run = Returns out /\ height out = 4 /\ width out = 0.
Proof. eexists. repeat split. Qed.

Example samesize_too_high :
  result (samesize Samples.no_resample Samples.no_smooth
            (Samples.colour_image 8 4 0) (Samples.colour_image 5 4 0) (1 # 2))
  = Raises AttributeError.
Proof. reflexivity. Qed.

Example samesize_greyscale :
  result (samesize Samples.no_resample Samples.no_smooth
            (Samples.grey_image [[1; 2; 3]; [4; 5; 6]]%Q)
            (Samples.grey_image [[1; 2]; [4; 5]]%Q) (1 # 2))
  = Raises IndexError.
Proof. reflexivity. Qed.

(* ===================================================================== *)
(** * ImageReshape.py: hcat *)
(* ===================================================================== *)

Section HcatFacts.

Variable result_type : string -> string -> string.

(** [np.pad] with [constant_values = (before, after)] fills the rows it adds
    below with [after]. *)
Lemma np_pad_below (a : ndarray) (k : Z) (before after : Q) :
  planes a = None -> 0 <= k ->
  exists a',
    np_pad a ((0, k), (0, 0)) (before, after) = (Returns a', []) /\
    rows a' = (rows a + Z.to_nat k)%nat /\ cols a' = cols a /\
    forall i j p,
      (j < cols a)%nat ->
      px a' i j p = if Nat.ltb i (rows a) then px a i j p else after.
Proof.
  intros Hp Hk. unfold np_pad. rewrite Hp.
  destruct (k <? 0) eqn:E; [apply Z.ltb_lt in E; lia |]. simpl.
  eexists. split; [reflexivity |]. simpl. repeat split; try lia.
  intros i j p Hj.
  destruct (Nat.leb_spec (cols a) j); [lia |].
  destruct (Nat.leb_spec (rows a) i), (Nat.ltb_spec i (rows a)); try lia.
  - reflexivity.
  - now rewrite !Nat.sub_0_r.
Qed.

Lemma fold_left_max_ge (l : list Z) (x : Z) :
  x <= fold_left Z.max l x /\ Forall (fun y => y <= fold_left Z.max l x) l.
Proof.
  revert x. induction l as [| y l IH]; intros x; simpl.
  - split; [lia | constructor].
  - destruct (IH (Z.max x y)) as [H1 H2]. split; [lia |].
    constructor; [lia | exact H2].
Qed.

(** The array [hcat] stacks for one image: the image itself, extended
    below to [H] rows; the rows added hold 0 whatever [pad] is. *)
Lemma hcat_operand (H : nat) (pad : Q) (im : Image) :
  greyscale im -> (rows (A im) <= H)%nat ->
  exists arr,
    (if height im <? Z.of_nat H
     then np_pad (image im) ((0, Z.of_nat H - height im), (0, 0)) (pad, 0%Q)
     else ret (image im)) = (Returns arr, []) /\
    planes arr = None /\ rows arr = H /\ cols arr = cols (A im) /\
    forall i j p,
      (i < H)%nat -> (j < cols (A im))%nat ->
      px arr i j p = if Nat.ltb i (rows (A im)) then px (A im) i j p else 0%Q.
Proof.
  intros Hg Hle. unfold height, image.
  destruct (Z.ltb_spec (Z.of_nat (rows (A im))) (Z.of_nat H)) as [Hlt | Hge].
  - destruct (np_pad_below (A im) (Z.of_nat H - Z.of_nat (rows (A im))) pad 0%Q Hg
                ltac:(lia)) as (arr & Hr & Hrows & Hcols & Hpx).
    exists arr. split; [exact Hr |].
    assert (Hp : planes arr = None).
    { unfold np_pad in Hr. rewrite Hg in Hr.
      destruct (_ || _) in Hr; [discriminate |]. inversion Hr. reflexivity. }
    repeat split; auto; try lia.
  - exists (A im). split; [reflexivity |].
    repeat split; auto; try lia.
    intros i j p Hi Hj.
    destruct (Nat.ltb_spec i (rows (A im))); [reflexivity | lia].
Qed.

(** The loop of [hcat], from any 2-D [combo] of [H] rows: it returns, the
    result keeps [H] rows and the columns of [combo], grows by the widths of
    the images, records where each image starts, and holds under each image
    that is shorter than [H] the value 0. *)
Lemma hcat_loop_spec (H : nat) (pad : Q) (images : list Image) :
  forall (combo : ndarray) (u : list Z),
    Forall (fun im => greyscale im /\ (rows (A im) <= H)%nat) images ->
    planes combo = None -> rows combo = H ->
    exists combo',
      hcat_loop result_type (Z.of_nat H) pad images combo u
      = (Returns (combo', u ++ offsets (Z.of_nat (cols combo)) (map width images)),
         []) /\
      planes combo' = None /\ rows combo' = H /\
      Z.of_nat (cols combo') = Z.of_nat (cols combo) + sum_widths images /\
      (forall i j p, (j < cols combo)%nat -> px combo' i j p = px combo i j p) /\
      (forall n im off,
          nth_error images n = Some im ->
          nth_error (offsets (Z.of_nat (cols combo)) (map width images)) n
          = Some off ->
          forall i j p,
            (i < H)%nat -> (j < cols (A im))%nat ->
            px combo' i (Z.to_nat off + j) p
            = if Nat.ltb i (rows (A im)) then px (A im) i j p else 0%Q).
Proof.
  induction images as [| im rest IH]; intros combo u Hall Hp Hr.
  - exists combo. simpl. rewrite app_nil_r.
    repeat split; auto; try (unfold sum_widths; simpl; lia).
    intros n im off Hn. destruct n; discriminate.
  - pose proof (Forall_inv Hall) as [Hg Hle].
    pose proof (Forall_inv_tail Hall) as Hall'.
    destruct (hcat_operand H pad im Hg Hle)
      as (arr & Harr & Hparr & Hrarr & Hcarr & Hpx).
    cbn [hcat_loop]. rewrite Harr, bind_pure.
    unfold np_hstack, same_planes. rewrite Hp, Hparr, Hrarr, Hr, Nat.eqb_refl.
    cbn [andb]. rewrite bind_ret.
    match goal with
    | |- context [hcat_loop _ _ _ rest ?c ?v] =>
        destruct (IH c v Hall' eq_refl eq_refl)
          as (combo' & Hrun & Hp' & Hr' & Hc' & Hkeep & Hcells)
    end.
    cbn [cols rows planes px] in Hrun, Hc', Hkeep, Hcells.
    exists combo'. split.
    { rewrite Hrun. rewrite <- app_assoc. cbn [map offsets app].
      unfold width at 3. rewrite Hcarr, Nat2Z.inj_add. reflexivity. }
    split; [exact Hp' |]. split; [exact Hr' |]. split.
    { rewrite Hc'. unfold sum_widths. cbn [map fold_right]. unfold width at 2.
      rewrite Hcarr. lia. }
    split.
    { intros i j p Hj. rewrite Hkeep by lia.
      destruct (Nat.ltb_spec j (cols combo)); [reflexivity | lia]. }
    intros n im' off Hn Hoff i j p Hi Hj.
    destruct n as [| n].
    + cbn in Hn, Hoff. inversion Hn; inversion Hoff; subst.
      rewrite Nat2Z.id. rewrite Hkeep by lia.
      destruct (Nat.ltb_spec (cols combo + j) (cols combo)); [lia |].
      replace (cols combo + j - cols combo)%nat with j by lia.
      apply Hpx; assumption.
    + cbn [nth_error map offsets] in Hn, Hoff.
      apply (Hcells n im' off Hn); auto.
      unfold width in Hoff at 1. rewrite Hcarr, Nat2Z.inj_add.
      unfold width at 1. exact Hoff.
Qed.

Lemma fold_left_max_in (l : list Z) (x : Z) :
  In (fold_left Z.max l x) (x :: l).
Proof.
  revert x. induction l as [| y l IH]; intros x; simpl.
  - now left.
  - destruct (IH (Z.max x y)) as [E | HIn].
    + rewrite <- E. destruct (Z.max_spec x y) as [[_ ->] | [_ ->]]; auto.
    + auto.
Qed.

(** What [hcat] does on a non-empty list of greyscale images, for every
    [pad]: the result is as high as the highest image and as wide as all
    of them together, [u] holds the running sums of the widths, every image
    is copied at its offset, and the cells under an image that is shorter
    than the result hold 0. *)
Lemma hcat_spec (images : list Image) (pad : Q) :
  images <> [] -> Forall greyscale images ->
  exists combo u,
    hcat result_type (Listed images) pad = (Returns (combo, u), []) /\
    (forall im, In im images -> height im <= height combo) /\
    (exists im, In im images /\ height im = height combo) /\
    width combo = sum_widths images /\
    u = offsets 0 (map width images) /\
    (forall n im off,
        nth_error images n = Some im -> nth_error u n = Some off ->
        forall i j p,
          Z.of_nat i < height combo -> (j < cols (A im))%nat ->
          px (A combo) i (Z.to_nat off + j) p
          = if Nat.ltb i (rows (A im)) then px (A im) i j p else 0%Q).
Proof.
  intros Hne Hgrey. destruct images as [| im0 rest]; [congruence |].
  set (images := im0 :: rest) in *.
  set (Hz := fold_left Z.max (map height rest) (height im0)).
  assert (Hmax : forall im, In im images -> height im <= Hz).
  { intros im HIn.
    destruct (fold_left_max_ge (map height rest) (height im0)) as [H0 Hall].
    destruct HIn as [<- | HIn]; [exact H0 |].
    rewrite Forall_forall in Hall. apply Hall. now apply in_map. }
  assert (Hnonneg : Z.of_nat (Z.to_nat Hz) = Hz).
  { apply Z2Nat.id. specialize (Hmax im0 (or_introl eq_refl)).
    unfold height in Hmax. lia. }
  assert (Hall : Forall (fun im => greyscale im /\ (rows (A im) <= Z.to_nat Hz)%nat)
                        images).
  { rewrite Forall_forall in *. intros im HIn. split; [auto |].
    specialize (Hmax im HIn). unfold height in Hmax. lia. }
  destruct (hcat_loop_spec (Z.to_nat Hz) pad images (np_empty (Z.to_nat Hz) 0) []
              Hall eq_refl eq_refl)
    as (combo & Hrun & Hp & Hr & Hc & _ & Hcells).
  rewrite Hnonneg in Hrun. cbn [np_empty cols app] in Hrun, Hc, Hcells.
  exists (new_image combo None), (offsets 0 (map width images)).
  split.
  { unfold hcat. rewrite bind_ret. unfold images at 1. cbn [map py_max].
    rewrite bind_ret. fold Hz. fold images. rewrite Hrun. reflexivity. }
  unfold height at 2 4 5, width at 1. cbn [new_image A]. rewrite Hr, Hnonneg.
  split; [exact Hmax |]. split.
  { destruct (fold_left_max_in (map height rest) (height im0)) as [E | HIn].
    - exists im0. split; [now left | exact E].
    - apply in_map_iff in HIn as (im & E & HIn).
      exists im. split; [now right | exact E]. }
  split; [lia |]. split; [reflexivity |].
  intros n im off Hn Hoff i j p Hi Hj.
  apply (Hcells n im off Hn Hoff); [lia | exact Hj].
Qed.

(** C6, at a failing input.  [hcat] of the 1x1 image [[5]] and the 2x1
    image [[6], [7]] with [pad = 9] returns a 2x2 array and the offsets
    [0; 1], but the cell below the first image holds 0, not the pad value 9:
    [constant_values = (pad, 0)] gives [pad] to rows added above and 0 to
    rows added below, and only rows below are added. *)
Theorem hcat_pads_below_with_zero :
  exists combo u,
    hcat result_type
         (Listed [Samples.grey_image [[5]]; Samples.grey_image [[6]; [7]]])%Q 9
    = (Returns (combo, u), []) /\
    height combo = 2 /\ width combo = 2 /\ u = [0; 1] /\
    px (A combo) 0 0 0 = 5%Q /\ px (A combo) 0 1 0 = 6%Q /\
    px (A combo) 1 1 0 = 7%Q /\
    px (A combo) 1 0 0 = 0%Q /\ px (A combo) 1 0 0 <> 9%Q.
Proof.
  eexists. eexists. split; [reflexivity |].
  cbn. repeat split; discriminate.
Qed.

End HcatFacts.

(* ===================================================================== *)
(** * ImageReshape.py: Tile *)
(* ===================================================================== *)

Section TileFacts.

Variables columns h w sep : Z.
Hypothesis columns_pos : 1 <= columns.

Lemma add_pastes_nil (cv : canvas) : add_pastes cv [] = cv.
Proof. destruct cv. unfold add_pastes. simpl. now rewrite app_nil_r. Qed.

Lemma add_pastes_app (cv : canvas) (l1 l2 : list (Image * (Z * Z))) :
  add_pastes (add_pastes cv l1) l2 = add_pastes cv (l1 ++ l2).
Proof. unfold add_pastes. simpl. now rewrite app_assoc. Qed.

Lemma paste_add (cv : canvas) (im : Image) (at_ : Z * Z) :
  paste cv im at_ = add_pastes cv [(im, at_)].
Proof. reflexivity. Qed.

Lemma place_app (k : Z) (l1 l2 : list Image) :
  place columns h w sep k (l1 ++ l2)
  = place columns h w sep k l1
    ++ place columns h w sep (k + Z.of_nat (List.length l1)) l2.
Proof.
  revert k. induction l1 as [| t l1 IH]; intros k; simpl.
  - now rewrite Z.add_0_r.
  - rewrite IH. do 3 f_equal. lia.
Qed.

Lemma nth_error_place (k : Z) (l : list Image) (i : nat) (t : Image) :
  nth_error l i = Some t ->
  nth_error (place columns h w sep k l) i
  = Some (t, tile_position columns h w sep (k + Z.of_nat i)).
Proof.
  revert k i. induction l as [| x l IH]; intros k i; destruct i; simpl;
    try discriminate.
  - intros H. inversion H. now rewrite Z.add_0_r.
  - intros H. rewrite (IH _ _ H). do 3 f_equal. lia.
Qed.

Lemma length_place (k : Z) (l : list Image) :
  List.length (place columns h w sep k l) = List.length l.
Proof. revert k. induction l; intros k; simpl; auto. Qed.

(** In row [row], column [j] of the grid sits tile [row * columns + j]. *)
Lemma tile_position_cell (row j : Z) :
  0 <= j < columns ->
  tile_position columns h w sep (row * columns + j)
  = (sep + j * (w + sep), sep + row * (h + sep)).
Proof.
  intros Hj. unfold tile_position.
  rewrite (Z.add_comm (row * columns) j).
  rewrite Z_mod_plus_full, Z_div_plus_full by lia.
  rewrite Z.mod_small, Z.div_small by lia. reflexivity.
Qed.

(** One pass of the inner loop pastes the next [c] tiles of the row. *)
Lemma tile_row_place (c : nat) :
  forall (tiles : list Image) (row j : Z) (cv : canvas),
    0 <= j -> j + Z.of_nat c <= columns ->
    tile_row c w sep tiles (sep + j * (w + sep)) (sep + row * (h + sep)) cv
    = (skipn c tiles,
       add_pastes cv (place columns h w sep (row * columns + j) (firstn c tiles))).
Proof.
  induction c as [| c IH]; intros tiles row j cv Hj Hc; simpl.
  - now rewrite add_pastes_nil.
  - destruct tiles as [| im rest]; simpl.
    + now rewrite add_pastes_nil.
    + replace (sep + j * (w + sep) + (w + sep)) with (sep + (j + 1) * (w + sep))
        by ring.
      rewrite IH by lia. f_equal.
      rewrite paste_add, add_pastes_app. simpl.
      rewrite tile_position_cell by lia.
      do 3 f_equal. ring.
Qed.

(** With at least [length tiles] iterations allowed, the outer loop ends
    with every tile pasted at its grid position and the list empty. *)
Lemma tile_rows_place (fuel : nat) :
  forall (tiles : list Image) (row : Z) (cv : canvas),
    (List.length tiles <= fuel)%nat ->
    tile_rows fuel columns h w sep tiles (sep + row * (h + sep)) cv
    = (Returns (add_pastes cv (place columns h w sep (row * columns) tiles), []),
       []).
Proof.
  induction fuel as [| fuel IH]; intros tiles row cv Hlen.
  - destruct tiles; [| simpl in Hlen; lia]. simpl. now rewrite add_pastes_nil.
  - destruct tiles as [| t rest]; [simpl; now rewrite add_pastes_nil |].
    cbn [tile_rows].
    pose proof (tile_row_place (Z.to_nat columns) (t :: rest) row 0 cv) as Hrow.
    rewrite Z.mul_0_l, !Z.add_0_r in Hrow. rewrite Hrow by lia. clear Hrow.
    replace (sep + row * (h + sep) + (h + sep)) with (sep + (row + 1) * (h + sep))
      by ring.
    rewrite IH.
    2:{ rewrite length_skipn. cbn [List.length] in *. lia. }
    rewrite add_pastes_app. do 4 f_equal.
    rewrite <- (firstn_skipn (Z.to_nat columns) (t :: rest)) at 3.
    rewrite place_app. f_equal.
    destruct (Nat.le_gt_cases (Z.to_nat columns) (List.length (t :: rest))) as [Hle | Hgt].
    + rewrite length_firstn, Nat.min_l by exact Hle.
      f_equal. rewrite Z2Nat.id by lia. ring.
    + rewrite skipn_all2 by lia. reflexivity.
Qed.

Lemma check_tiles_uniform (dt : string) (tiles : list Image) :
  uniform h w dt tiles -> check_tiles [h; w] dt tiles = (Returns tt, []).
Proof.
  induction 1 as [| t rest [Hs Hd] _ IH]; simpl; [reflexivity |].
  rewrite Hs, Hd, String.eqb_refl.
  destruct (list_eq_dec Z.eq_dec [h; w] [h; w]); [exact IH | congruence].
Qed.

(** [int(np.ceil(n / columns))] is the number of rows needed. *)
Lemma ceil_div_rows (n : Z) :
  ceil_div n columns = (Returns ((n + columns - 1) / columns), []).
Proof.
  unfold ceil_div. destruct (columns =? 0) eqn:E; [apply Z.eqb_eq in E; lia |].
  unfold ret. do 2 f_equal.
  pose proof (Z.div_mod (- n) columns ltac:(lia)) as Hdm.
  pose proof (Z.mod_pos_bound (- n) columns ltac:(lia)) as Hb.
  apply (Z.div_unique_pos _ _ _ (columns - 1 - (- n) mod columns)); lia.
Qed.

(** For uniform greyscale tiles and at least one column, [Tile] returns. *)
Lemma Tile_returns (dt : string) (tiles : list Image) (bgcolor : Q) :
  tiles <> [] -> uniform h w dt tiles ->
  let nrows := (Z.of_nat (List.length tiles) + columns - 1) / columns in
  Tile tiles columns sep bgcolor
  = (Returns
       (add_pastes
          (Constant (columns * w + (columns + 1) * sep)
                    (nrows * h + (nrows + 1) * sep) bgcolor dt)
          (place columns h w sep 0 tiles), []),
     []).
Proof.
  intros Hne Hu nrows. destruct tiles as [| t0 rest]; [congruence |].
  pose proof Hu as Hu'. inversion Hu' as [| ? ? [Hs Hd] Hrest]; subst.
  unfold Tile. rewrite Hs, (check_tiles_uniform _ _ Hrest).
  rewrite bind_pure, ceil_div_rows, bind_pure.
  change (nth 0 [h; w] 0) with h. change (nth 1 [h; w] 0) with w.
  change (Z.of_nat (List.length [h; w]) =? 3) with false. cbv iota.
  fold nrows.
  pose proof (tile_rows_place (List.length (t0 :: rest)) (t0 :: rest) 0
                (Constant (columns * w + (columns + 1) * sep)
                          (nrows * h + (nrows + 1) * sep) bgcolor (im_dtype t0)))
    as Hrows.
  rewrite !Z.mul_0_l, Z.add_0_r in Hrows.
  apply Hrows. lia.
Qed.

End TileFacts.

Lemma tile_rows_returns_nil (fuel : nat) :
  forall (columns h w sep : Z) (tiles : list Image) (v : Z) (cv c : canvas)
         (rest : list Image) (t : list cv_call),
    tile_rows fuel columns h w sep tiles v cv = (Returns (c, rest), t) ->
    rest = [].
Proof.
  induction fuel as [| fuel IH]; intros columns h w sep tiles v cv c rest t;
    destruct tiles as [| t0 tiles]; simpl; try discriminate.
  - intros H. now inversion H.
  - intros H. now inversion H.
  - destruct (tile_row _ _ _ _ _ _ _) as [tiles' cv']. apply IH.
Qed.



(** C9.  Whenever [Tile] returns, the list object it was given is empty;
    and it does return, with the list empty, for every non-empty list of
    uniform greyscale tiles and [columns >= 1]. *)
Theorem Tile_empties_list :
  forall (tiles : list Image) (columns sep : Z) (bgcolor : Q),
    (forall (cv : canvas) (rest : list Image) (t : list cv_call),
        Tile tiles columns sep bgcolor = (Returns (cv, rest), t) -> rest = [])
    /\ (forall (h w : Z) (dt : string),
        tiles <> [] -> uniform h w dt tiles -> 1 <= columns ->
        exists cv, Tile tiles columns sep bgcolor = (Returns (cv, []), [])).
Proof.
  intros tiles columns sep bgcolor. split.
  - intros cv rest t. unfold Tile. destruct tiles as [| t0 tiles]; [discriminate |].
    intros H.
    apply bind_returns in H as (? & ? & ? & _ & H & _).
    apply bind_returns in H as (nrows & ? & ? & _ & H & _).
    exact (tile_rows_returns_nil _ _ _ _ _ _ _ _ _ _ _ H).
  - intros h w dt Hne Hu Hc. eexists.
    exact (Tile_returns columns h w sep Hc dt tiles bgcolor Hne Hu).
Qed.

(* ===================================================================== *)
(** * The theorems at concrete inputs *)
(* ===================================================================== *)

Lemma draw_guard_raises_TypeError_witness :
  draw_box Samples.no_color_bgr Samples.grey_2x2 Samples.red_box
  = (Raises TypeError, []) /\
  draw_text Samples.no_color_bgr Samples.grey_2x2 (0, 0)%Q (Some "a"%string)
            (ColStr "red") FONT_HERSHEY_SIMPLEX (3 # 10) 2
  = (Raises TypeError, []) /\
  draw_point Samples.no_color_bgr Samples.no_format Samples.grey_2x2
             (PosPairs [(0, 0); (1, 1)]%Q) "+" (Some "a"%string) (ColStr "red")
             FONT_HERSHEY_SIMPLEX (3 # 10) 2
  = (Raises TypeError, []).
Proof.
  apply (draw_guard_raises_TypeError Samples.no_color_bgr Samples.no_format
           Samples.grey_2x2 Samples.red_box); reflexivity.
Defined.


Lemma rotate_delegates_witness :
  log (rotate Samples.no_warp Samples.no_rotation_matrix Samples.no_degrees
              (Samples.colour_image 4 6 0) (Num (1 # 2)) false None)
  = [GetRotationMatrix2D [inject_Z 6 / 2; inject_Z 4 / 2]%Q (1 # 2) 1;
     WarpAffine (Samples.solid "uint8" 4 6 3 0) [] (6, 4)].
Proof.
  apply (rotate_delegates Samples.no_warp Samples.no_rotation_matrix
           Samples.no_degrees bool (Samples.colour_image 4 6 0) (1 # 2) false
           None I).
Defined.



(* ===================================================================== *)
(** * graphics.py: further properties *)
(* ===================================================================== *)

Section MoreGraphicsFacts.

Variable color_bgr : string -> pycolor.
Variable format : string -> nat -> string.


(** X2.  On a greyscale image, [draw_box] without a fill colour raises
    TypeError for every colour and draws nothing: a colour that is not an
    int is refused by the guard, and an int has no [len]. *)
Theorem draw_box_greyscale_no_fill :
  forall (image : ndarray) (a : box_args),
    ndim image = 2 ->
    fillcolor a = ColNone ->
    draw_box color_bgr image a = (Raises TypeError, []).
Proof.
  intros image a Hd Hf. unfold draw_box, grey_guard. rewrite Hd, Hf.
  destruct (color a) as [| v | s | l]; simpl; try reflexivity.
  destruct (box_corners a) as [b c]. reflexivity.
Qed.

(** X3.  A box cannot be given through [br].  Without [bbox], without
    [tr] and without [wh], no branch determines the top-right corner, so
    [draw_box] raises TypeError and draws nothing, whatever [bl], [tl],
    [br] and [centre] are. *)
Theorem draw_box_needs_tr_or_wh :
  forall (image : ndarray) (a : box_args),
    bbox a = None -> tr a = None -> wh a = None ->
    draw_box color_bgr image a = (Raises TypeError, []).
Proof.
  intros image a Hb Ht Hw. unfold draw_box, box_corners.
  rewrite Hb, Ht, Hw.
  destruct (grey_guard (color a) image); [reflexivity |].
  destruct (bl a) as [p |], (tl a), (centre a);
    destruct (is_None (fillcolor a));
    destruct (named_color color_bgr _) as [| v | s | l]; reflexivity.
Qed.

Lemma of_nat_eqb_3 (n : nat) : (Z.of_nat n =? 3) = Nat.eqb n 3.
Proof. destruct (Z.eqb_spec (Z.of_nat n) 3), (Nat.eqb_spec n 3); lia. Qed.

(** X4.  The rectangle [draw_box] draws: a fill colour replaces the outline
    colour and forces thickness -1; a colour name is looked up with
    [color_bgr]; and a colour of exactly three components is reversed
    before it is handed to OpenCV, any other length is passed unchanged. *)
Theorem draw_box_rectangle :
  forall (image : ndarray) (a : box_args) (l : list Q)
         (r : ipoint * ipoint) (t : list cv_call),
    drawn_color color_bgr a = ColSeq l ->
    draw_box color_bgr image a = (Returns r, t) ->
    t = [Rectangle image (fst r) (snd r)
           (ColSeq (if Nat.eqb (List.length l) 3 then List.rev l else l))
           (if is_None (fillcolor a) then thickness a else -1)].
Proof.
  intros image a l r t Hc. unfold draw_box, drawn_color in *.
  destruct (grey_guard (color a) image); [discriminate |].
  destruct (box_corners a) as [[p |] [q |]];
    destruct (is_None (fillcolor a)); rewrite Hc; simpl;
    try discriminate; rewrite of_nat_eqb_3;
    intros H; inversion H; subst; simpl;
    destruct (Nat.eqb (List.length l) 3); reflexivity.
Qed.




(** X6.  A single position given as a pair of numbers, [pos = (x, y)], is
    never drawn: [draw_point] raises TypeError on every image and for every
    colour, because [zip(x, y)] is applied to the two numbers. *)
Theorem draw_point_scalar_pair_raises :
  forall (image : ndarray) (x y : Q) (marker : string) (text : option string)
         (c : pycolor) (font : Z) (fontsize : Q) (fontthickness : Z),
    draw_point color_bgr format image (PosXY (Scalar x) (Scalar y)) marker text
               c font fontsize fontthickness = (Raises TypeError, []).
Proof.
  intros image x y marker text c font fontsize fontthickness.
  unfold draw_point. destruct (grey_guard c image); reflexivity.
Qed.

Variable invoke : pyval -> list pyval -> M pyval.
Variable get_attr : pyval -> string -> M pyval.

(** X7.  Whatever its arguments, [plot_labelbox] raises NameError before
    it calls anything: [plot_box] is neither a local, nor defined or
    imported by the module, nor a built-in. *)
Theorem plot_labelbox_raises_NameError :
  forall (text : string) (textcolor : pycolor) (kwargs : box_kwargs),
    plot_labelbox invoke get_attr text textcolor kwargs = (Raises NameError, []).
Proof. intros. reflexivity. Qed.

End MoreGraphicsFacts.

(* ===================================================================== *)
(** * ImageReshape.py: pad and trim *)
(* ===================================================================== *)

(** A slice [lo:hi] with [0 <= lo <= hi <= n] selects the indices from
    [lo], [hi - lo] of them. *)
Lemma slice_indices_inside (n : nat) (lo hi : Z) :
  0 <= lo <= hi -> hi <= Z.of_nat n ->
  slice_indices n (range lo hi) = (Z.to_nat lo, Z.to_nat (hi - lo)).
Proof.
  intros H1 H2. unfold slice_indices, range, slice_bound. cbn [start stop].
  destruct (Z.ltb_spec lo 0), (Z.ltb_spec hi 0); try lia.
  rewrite !Z.min_l by lia. reflexivity.
Qed.

(** Whatever its bounds, a slice selects at most [n] indices. *)
Lemma slice_indices_le (n : nat) (s : slice) :
  (snd (slice_indices n s) <= n)%nat.
Proof.
  unfold slice_indices, slice_bound. cbn [snd].
  destruct (start s) as [lo |], (stop s) as [hi |];
    repeat match goal with
           | |- context [?x <? 0] => destruct (Z.ltb_spec x 0)
           end; lia.
Qed.

(** The array [pad] builds on a greyscale image, cell by cell. *)
Lemma pad_inside (self : Image) (l r t b : Z) (value : Q) :
  greyscale self -> 0 <= l -> 0 <= r -> 0 <= t -> 0 <= b ->
  exists out,
    pad self l r t b value = (Returns out, []) /\
    planes (A out) = None /\ colororder out = None /\
    rows (A out) = (Z.to_nat t + rows (A self) + Z.to_nat b)%nat /\
    cols (A out) = (Z.to_nat l + cols (A self) + Z.to_nat r)%nat /\
    forall i j k,
      px (A out) i j k
      = if Nat.ltb j (Z.to_nat l) then value
        else if Nat.leb (Z.to_nat l + cols (A self)) j then value
        else if Nat.ltb i (Z.to_nat t) then value
        else if Nat.leb (Z.to_nat t + rows (A self)) i then value
        else px (A self) (i - Z.to_nat t) (j - Z.to_nat l) k.
Proof.
  intros Hg Hl Hr Ht Hb.
  unfold pad, np_pad, image. rewrite Hg.
  destruct (Z.ltb_spec t 0), (Z.ltb_spec b 0), (Z.ltb_spec l 0),
           (Z.ltb_spec r 0); try lia.
  cbn [orb]. rewrite bind_ret.
  eexists. split; [reflexivity |].
  cbn [new_image A colororder planes rows cols px]. auto.
Qed.


(** X9.  [pad] raises ValueError exactly when the image is a colour image
    (two width pairs do not fit a 3-D array) or one of the widths is
    negative. *)
Theorem pad_ValueError_iff :
  forall (self : Image) (l r t b : Z) (value : Q),
    pad self l r t b value = (Raises ValueError, []) <->
    (iscolor self = true \/ l < 0 \/ r < 0 \/ t < 0 \/ b < 0).
Proof.
  intros self l r t b value. unfold pad, np_pad, iscolor, image.
  destruct (planes (A self)) as [p |].
  - split; [now left | reflexivity].
  - destruct (Z.ltb_spec t 0), (Z.ltb_spec b 0), (Z.ltb_spec l 0),
             (Z.ltb_spec r 0); cbn [orb];
      try (split; [intros _; lia | reflexivity]).
    rewrite bind_ret. split; [discriminate |].
    intros [H' | H']; [discriminate | lia].
Qed.

(** The array [trim] cuts out, when the four amounts are non-negative and
    leave something (possibly nothing) of each dimension. *)
Lemma trim_inside (self : Image) (l r t b : Z) :
  0 <= l -> 0 <= r -> l + r <= width self ->
  0 <= t -> 0 <= b -> t + b <= height self ->
  exists out,
    trim self l r t b = (Returns out, []) /\
    planes (A out) = planes (A self) /\
    rows (A out) = (rows (A self) - Z.to_nat t - Z.to_nat b)%nat /\
    cols (A out) = (cols (A self) - Z.to_nat l - Z.to_nat r)%nat /\
    colororder out = colororder self /\
    forall i j k,
      px (A out) i j k = px (A self) (Z.to_nat t + i) (Z.to_nat l + j) k.
Proof.
  intros Hl Hr Hw Ht Hb Hh. unfold trim, iscolor, index3, index2.
  unfold height, width in *.
  rewrite !slice_indices_inside by lia.
  destruct (planes (A self)) as [p |] eqn:Hp.
  - unfold slice_indices, full. cbn [start stop]. rewrite bind_ret.
    eexists. split; [reflexivity |].
    cbn [new_image A colororder planes rows cols px dtype].
    repeat split; try lia. f_equal. lia.
  - rewrite bind_ret. eexists. split; [reflexivity |].
    cbn [new_image A colororder planes rows cols px dtype].
    repeat split; auto; lia.
Qed.

(** The same with heights and widths as Python ints. *)
Lemma trim_inside_sizes (self : Image) (l r t b : Z) :
  0 <= l -> 0 <= r -> l + r <= width self ->
  0 <= t -> 0 <= b -> t + b <= height self ->
  exists out,
    trim self l r t b = (Returns out, []) /\
    height out = height self - t - b /\
    width out = width self - l - r /\
    planes (A out) = planes (A self) /\
    colororder out = colororder self /\
    forall i j k,
      px (A out) i j k = px (A self) (Z.to_nat t + i) (Z.to_nat l + j) k.
Proof.
  intros Hl Hr Hw Ht Hb Hh.
  destruct (trim_inside self l r t b Hl Hr Hw Ht Hb Hh)
    as (out & Hrun & Hp & Hrows & Hcols & Hco & Hpx).
  exists out. unfold height, width in *.
  split; [exact Hrun |]. split; [lia |]. split; [lia |]. auto.
Qed.

(** X10.  With non-negative amounts that fit the image, [trim] returns the
    window that starts at (top, left): the height shrinks by
    [top + bottom], the width by [left + right], and planes and colour
    order are kept. *)
Theorem trim_window :
  forall (self : Image) (l r t b : Z),
    0 <= l -> 0 <= r -> l + r <= width self ->
    0 <= t -> 0 <= b -> t + b <= height self ->
    exists out,
      trim self l r t b = (Returns out, []) /\
      height out = height self - t - b /\
      width out = width self - l - r /\
      planes (A out) = planes (A self) /\
      colororder out = colororder self /\
      forall i j k,
        px (A out) i j k = px (A self) (Z.to_nat t + i) (Z.to_nat l + j) k.
Proof.
  intros self l r t b Hl Hr Hw Ht Hb Hh.
  destruct (trim_inside self l r t b Hl Hr Hw Ht Hb Hh)
    as (out & Hrun & Hp & Hrows & Hcols & Hco & Hpx).
  exists out. unfold height, width in *. repeat split; auto; lia.
Qed.

(** X11.  [trim] never raises and never enlarges: for all integer
    amounts, negative or larger than the image included, it returns an
    image with the input's planes and colour order and at most its height
    and width. *)
Theorem trim_never_enlarges :
  forall (self : Image) (l r t b : Z),
    exists out,
      trim self l r t b = (Returns out, []) /\
      0 <= height out <= height self /\
      0 <= width out <= width self /\
      planes (A out) = planes (A self) /\
      colororder out = colororder self.
Proof.
  intros self l r t b. unfold trim, iscolor, index3, index2, height, width.
  pose proof (slice_indices_le (rows (A self))
                (range t (Z.of_nat (rows (A self)) - b))) as Hr.
  pose proof (slice_indices_le (cols (A self))
                (range l (Z.of_nat (cols (A self)) - r))) as Hc.
  destruct (slice_indices (rows (A self)) _) as [r0 nr].
  destruct (slice_indices (cols (A self)) _) as [c0 nc].
  cbn [snd] in Hr, Hc.
  destruct (planes (A self)) as [p |] eqn:Hp.
  - unfold slice_indices, full. cbn [start stop]. rewrite bind_ret.
    eexists. split; [reflexivity |].
    cbn [new_image A colororder planes rows cols].
    repeat split; try lia. f_equal. lia.
  - rewrite bind_ret. eexists. split; [reflexivity |].
    cbn [new_image A colororder planes rows cols].
    repeat split; auto; lia.
Qed.

(** X12.  Trimming a padded greyscale image by the widths it was padded
    with gives back the size and every pixel of the original. *)
Theorem trim_pad_round_trip :
  forall (self : Image) (l r t b : Z) (value : Q),
    greyscale self -> 0 <= l -> 0 <= r -> 0 <= t -> 0 <= b ->
    exists padded out,
      pad self l r t b value = (Returns padded, []) /\
      trim padded l r t b = (Returns out, []) /\
      height out = height self /\ width out = width self /\
      forall i j k,
        (i < rows (A self))%nat -> (j < cols (A self))%nat ->
        px (A out) i j k = px (A self) i j k.
Proof.
  intros self l r t b value Hg Hl Hr Ht Hb.
  destruct (pad_inside self l r t b value Hg Hl Hr Ht Hb)
    as (padded & Hpad & _ & _ & Hrows & Hcols & Hin).
  assert (Hhp : height padded = t + height self + b)
    by (unfold height; lia).
  assert (Hwp : width padded = l + width self + r)
    by (unfold width; lia).
  clear Hrows Hcols.
  assert (Hfw : l + r <= width padded) by (rewrite Hwp; unfold width; lia).
  assert (Hfh : t + b <= height padded) by (rewrite Hhp; unfold height; lia).
  destruct (trim_inside_sizes padded l r t b Hl Hr Hfw Ht Hb Hfh)
    as (out & Htrim & Hh' & Hw' & _ & _ & Hpx).
  exists padded, out.
  split; [exact Hpad |]. split; [exact Htrim |].
  split; [lia |]. split; [lia |].
  intros i j k Hi Hj. rewrite Hpx, Hin.
  destruct (Nat.ltb_spec (Z.to_nat l + j) (Z.to_nat l)); [lia |].
  destruct (Nat.leb_spec (Z.to_nat l + cols (A self)) (Z.to_nat l + j)); [lia |].
  destruct (Nat.ltb_spec (Z.to_nat t + i) (Z.to_nat t)); [lia |].
  destruct (Nat.leb_spec (Z.to_nat t + rows (A self)) (Z.to_nat t + i)); [lia |].
  f_equal; lia.
Qed.

(** X13.  Two trims compose into one: trimming by (l1, r1, t1, b1) and then
    by (l2, r2, t2, b2) gives the size and the pixels of one trim by the
    sums, when the amounts are non-negative and fit. *)
Theorem trim_trim :
  forall (self : Image) (l1 r1 t1 b1 l2 r2 t2 b2 : Z),
    0 <= l1 -> 0 <= r1 -> 0 <= t1 -> 0 <= b1 ->
    0 <= l2 -> 0 <= r2 -> 0 <= t2 -> 0 <= b2 ->
    l1 + l2 + r1 + r2 <= width self ->
    t1 + t2 + b1 + b2 <= height self ->
    exists mid out both,
      trim self l1 r1 t1 b1 = (Returns mid, []) /\
      trim mid l2 r2 t2 b2 = (Returns out, []) /\
      trim self (l1 + l2) (r1 + r2) (t1 + t2) (b1 + b2) = (Returns both, []) /\
      height out = height both /\ width out = width both /\
      planes (A out) = planes (A both) /\
      colororder out = colororder both /\
      forall i j k, px (A out) i j k = px (A both) i j k.
Proof.
  intros self l1 r1 t1 b1 l2 r2 t2 b2 ? ? ? ? ? ? ? ? Hw Hh.
  destruct (trim_inside_sizes self l1 r1 t1 b1)
    as (mid & Hmid & Hh1 & Hw1 & Hp1 & Hco1 & Hpx1); try lia.
  destruct (trim_inside_sizes mid l2 r2 t2 b2)
    as (out & Hout & Hh2 & Hw2 & Hp2 & Hco2 & Hpx2); try lia.
  destruct (trim_inside_sizes self (l1 + l2) (r1 + r2) (t1 + t2) (b1 + b2))
    as (both & Hboth & Hh3 & Hw3 & Hp3 & Hco3 & Hpx3); try lia.
  exists mid, out, both.
  split; [exact Hmid |]. split; [exact Hout |]. split; [exact Hboth |].
  split; [lia |]. split; [lia |].
  split; [now rewrite Hp2, Hp1, Hp3 |].
  split; [now rewrite Hco2, Hco1, Hco3 |].
  intros i j k. rewrite Hpx2, Hpx1, Hpx3. f_equal; lia.
Qed.

(* ===================================================================== *)
(** * ImageReshape.py: scale, samesize, rotate, affine_warp *)
(* ===================================================================== *)


Section ScaleFacts.

Variable resample : ndarray -> Q -> Q -> Z -> nat -> nat -> nat -> Q.
Variable smooth : Image -> Q -> Image.

(** X14.  The errors of [scale]: it raises TypeError exactly when the
    factor is not a scalar or the interpolation is neither None nor a
    string, ValueError exactly when the factor is a scalar and the
    interpolation is a string other than cubic, linear and area; and these
    errors are raised before any OpenCV call. *)
Theorem scale_errors :
  forall (self : Image) (sfactor : num_arg) (outsize : option (Z * Z))
         (sigma : option Q) (interpolation : interp_arg),
    let run := scale resample smooth self sfactor outsize sigma interpolation in
    (result run = Raises TypeError <->
     sfactor = NotScalar \/ interpolation = InterpOther) /\
    (result run = Raises ValueError <->
     exists f s, sfactor = Num f /\ interpolation = InterpStr s /\
                 known_interpolation s = false) /\
    (forall e, result run = Raises e -> log run = []).
Proof.
  intros self sfactor outsize sigma interpolation run. subst run.
  unfold scale, known_interpolation.
  destruct sfactor as [f |].
  2:{ repeat split; try (intros; auto; discriminate); auto.
      intros (f & s & H & _). discriminate. }
  destruct interpolation as [| s |]; cbn.
  - repeat split; try discriminate.
    + intros [H | H]; discriminate.
    + intros (f' & s & _ & H & _). discriminate.
  - destruct (String.eqb s "cubic") eqn:E1; [| destruct (String.eqb s "linear") eqn:E2;
      [| destruct (String.eqb s "area") eqn:E3]]; cbn;
      repeat split; try discriminate; auto;
      try (intros [H | H]; discriminate);
      try (intros (f' & s' & _ & H & H'); inversion H; subst;
           rewrite ?E1, ?E2, ?E3 in H'; discriminate).
    intros _. exists f, s. repeat split. now rewrite E1, E2, E3.
  - repeat split; auto; try discriminate.
    intros (f' & s & _ & H & _). discriminate.
Qed.



(** X17.  What [samesize] can return: only for a colour image, and then an
    image that is exactly as wide as [im2] or has no columns at all. *)
Theorem samesize_returned_width :
  forall (self im2 out : Image) (bias : Q),
    result (samesize resample smooth self im2 bias) = Returns out ->
    planes (A self) <> None /\ (width out = width im2 \/ width out = 0).
Proof.
  intros self im2 out bias Hret.
  destruct (Qlt_bool bias 0 || Qlt_bool 1 bias) eqn:E.
  { unfold samesize in Hret. rewrite E in Hret. discriminate. }
  assert (Hb : (0 <= bias <= 1)%Q).
  { apply orb_false_iff in E as [E0 E1]. split.
    - destruct (Qlt_le_dec bias 0) as [H | H]; [| exact H].
      apply Qlt_bool_iff in H. congruence.
    - destruct (Qlt_le_dec 1 bias) as [H | H]; [| exact H].
      apply Qlt_bool_iff in H. congruence. }
  destruct (samesize_paths resample smooth self im2 bias Hb)
    as (o & _ & Hrow & Hnone & Hcol & Hok).
  cbv zeta in *.
  destruct (Z_lt_le_dec (width im2) (height o)) as [H | H].
  { rewrite (Hrow H) in Hret. discriminate. }
  destruct (Z_lt_le_dec (width im2) (width o)) as [H' | H'].
  2:{ rewrite (Hnone H H') in Hret. discriminate. }
  destruct (planes (A self)) as [p |] eqn:Hp.
  2:{ rewrite (Hcol H H' eq_refl) in Hret. discriminate. }
  split; [discriminate |].
  destruct (Hok H H' ltac:(discriminate)) as (out' & Hr & _ & Hw).
  rewrite Hr in Hret. inversion Hret; subst.
  destruct (0 <? _); auto.
Qed.

End ScaleFacts.

Section MoreRotateFacts.

Variable warp : ndarray -> matrix -> Z * Z -> nat -> nat -> nat -> Q.
Variable rotation_matrix : list Q -> Q -> Q -> matrix.
Variable degrees : Q -> Q.


End MoreRotateFacts.

Section WarpFacts.

Variable warp_with : ndarray -> matrix -> Z * Z -> Z -> option Z ->
                     option (list Q) -> nat -> nat -> nat -> Q.


End WarpFacts.

(* ===================================================================== *)
(** * ImageReshape.py: hcat, Tile and roi, further properties *)
(* ===================================================================== *)

Section MoreHcatFacts.

Variable result_type : string -> string -> string.

Lemma hcat_loop_colour (H : nat) (pad : Q) (images : list Image) :
  forall (combo : ndarray) (u : list Z),
    Forall (fun im => (rows (A im) <= H)%nat) images ->
    Exists (fun im => iscolor im = true) images ->
    planes combo = None -> rows combo = H ->
    hcat_loop result_type (Z.of_nat H) pad images combo u
    = (Raises ValueError, []).
Proof.
  induction images as [| im rest IH]; intros combo u Hall Hex Hp Hr.
  - inversion Hex.
  - pose proof (Forall_inv Hall) as Hle.
    pose proof (Forall_inv_tail Hall) as Hall'.
    cbn [hcat_loop].
    destruct (planes (A im)) as [p |] eqn:Hpim.
    + (* a colour image: np.pad or np.hstack refuses it *)
      unfold height, image, np_pad, np_hstack, same_planes.
      rewrite Hpim, Hp.
      destruct (Z.of_nat (rows (A im)) <? Z.of_nat H); [reflexivity |].
      rewrite bind_ret, Hpim. reflexivity.
    + (* a greyscale image is stacked and the loop goes on *)
      assert (Hex' : Exists (fun im => iscolor im = true) rest).
      { inversion Hex as [? ? Hc | ? ? Hc]; subst; [| exact Hc].
        unfold iscolor in Hc. rewrite Hpim in Hc. discriminate. }
      destruct (hcat_operand H pad im Hpim Hle)
        as (arr & Harr & Hparr & Hrarr & _).
      rewrite Harr, bind_pure.
      unfold np_hstack, same_planes. rewrite Hp, Hparr, Hrarr, Hr, Nat.eqb_refl.
      cbn [andb]. rewrite bind_ret.
      apply IH; auto.
Qed.

(** X21.  [hcat] cannot concatenate colour images: as soon as one image of
    the list has colour planes the call raises ValueError, whatever the
    other images and the pad value are. *)
Theorem hcat_colour_raises :
  forall (images : list Image) (pad : Q),
    Exists (fun im => iscolor im = true) images ->
    hcat result_type (Listed images) pad = (Raises ValueError, []).
Proof.
  intros images pad Hex. destruct images as [| im0 rest]; [inversion Hex |].
  unfold hcat. rewrite bind_ret. cbn [map py_max]. rewrite bind_ret.
  set (Hz := fold_left Z.max (map height rest) (height im0)).
  assert (Hmax : Forall (fun im => height im <= Hz) (im0 :: rest)).
  { destruct (fold_left_max_ge (map height rest) (height im0)) as [H0 Hall].
    constructor; [exact H0 |].
    rewrite Forall_forall in *. intros im HIn. apply Hall. now apply in_map. }
  assert (Hnonneg : Z.of_nat (Z.to_nat Hz) = Hz).
  { apply Z2Nat.id. pose proof (Forall_inv Hmax) as H0.
    unfold height in H0. lia. }
  assert (Hloop : forall combo u,
             planes combo = None -> rows combo = Z.to_nat Hz ->
             hcat_loop result_type Hz pad (im0 :: rest) combo u
             = (Raises ValueError, [])).
  { intros combo u Hp Hr. rewrite <- Hnonneg.
    apply hcat_loop_colour; auto.
    rewrite Forall_forall in *. intros im HIn.
    specialize (Hmax im HIn). unfold height in Hmax. lia. }
  rewrite Hloop; reflexivity.
Qed.

Lemma nth_error_offsets (ims : list Image) :
  forall (from : Z) (n : nat),
    (n < List.length ims)%nat ->
    nth_error (offsets from (map width ims)) n
    = Some (from + sum_widths (firstn n ims)).
Proof.
  induction ims as [| im ims IH]; intros from n Hn; [simpl in Hn; lia |].
  destruct n as [| n]; cbn [map offsets nth_error firstn].
  - unfold sum_widths. simpl. f_equal. lia.
  - rewrite IH by (simpl in Hn; lia).
    unfold sum_widths. cbn [map fold_right]. f_equal. lia.
Qed.

(** X20.  What [hcat] returns for a non-empty list of greyscale images and
    any [pad]: an image as high as the highest of them and as wide as all of
    them together, and one offset per image, [u[n]] being the sum of the
    widths of the images before image [n]; image [n] is copied from column
    [u[n]] on, and the cells below an image that is shorter than the result
    hold 0, not [pad]. *)
Theorem hcat_greyscale :
  forall (images : list Image) (pad : Q),
    images <> [] -> Forall greyscale images ->
    exists combo u,
      hcat result_type (Listed images) pad = (Returns (combo, u), []) /\
      (forall im, In im images -> height im <= height combo) /\
      (exists im, In im images /\ height im = height combo) /\
      width combo = sum_widths images /\
      List.length u = List.length images /\
      (forall n im,
          nth_error images n = Some im ->
          nth_error u n = Some (sum_widths (firstn n images)) /\
          forall i j p,
            Z.of_nat i < height combo -> (j < cols (A im))%nat ->
            px (A combo) i (Z.to_nat (sum_widths (firstn n images)) + j) p
            = if Nat.ltb i (rows (A im)) then px (A im) i j p else 0%Q).
Proof.
  intros images pad Hne Hgrey.
  destruct (hcat_spec result_type images pad Hne Hgrey)
    as (combo & u & Hrun & Hmax & Hhit & Hw & Hu & Hcells).
  exists combo, u. repeat split; auto.
  - subst u. clear. generalize 0. induction images as [| im ims IH]; intros z;
      simpl; [reflexivity | now rewrite IH].
  - subst u. rewrite nth_error_offsets; [reflexivity |].
    apply nth_error_Some. congruence.
  - intros i j p Hi Hj. apply (Hcells n im); auto.
    subst u. rewrite nth_error_offsets; [reflexivity |].
    apply nth_error_Some. congruence.
Qed.

End MoreHcatFacts.

(** ** Tile *)

Lemma check_tiles_same (s : list Z) (d : string) (rest : list Image) :
  Forall (fun t => im_shape t = s /\ im_dtype t = d) rest ->
  check_tiles s d rest = (Returns tt, []).
Proof.
  induction 1 as [| t rest [Hs Hd] _ IH]; simpl; [reflexivity |].
  rewrite Hs, Hd, String.eqb_refl.
  destruct (list_eq_dec Z.eq_dec s s); [exact IH | congruence].
Qed.

Lemma check_tiles_mismatch (s : list Z) (d : string) (rest : list Image) :
  Exists (fun t => im_shape t <> s \/ im_dtype t <> d) rest ->
  check_tiles s d rest = (Raises ValueError, []).
Proof.
  induction rest as [| t rest IH]; intros Hex; [inversion Hex |].
  simpl. destruct (list_eq_dec Z.eq_dec (im_shape t) s) as [Hs | Hs];
    [| reflexivity].
  destruct (String.eqb_spec (im_dtype t) d) as [Hd | Hd]; [| reflexivity].
  apply IH. inversion Hex as [? ? [H | H] | ? ? H]; subst; tauto.
Qed.

(** X22.  The checks of [Tile] come first.  When some tile after the first
    differs from the first in shape or in element type, [Tile] raises
    ValueError for every [columns] and [sep], [columns = 0] included; when
    all tiles agree and [columns = 0] it raises ZeroDivisionError. *)
Theorem Tile_checks_first :
  forall (t0 : Image) (rest : list Image) (columns sep : Z) (bgcolor : Q),
    (Exists (fun t => im_shape t <> im_shape t0 \/ im_dtype t <> im_dtype t0)
            rest ->
     Tile (t0 :: rest) columns sep bgcolor = (Raises ValueError, [])) /\
    (Forall (fun t => im_shape t = im_shape t0 /\ im_dtype t = im_dtype t0)
            rest ->
     columns = 0 ->
     Tile (t0 :: rest) columns sep bgcolor = (Raises ZeroDivisionError, [])).
Proof.
  intros t0 rest columns sep bgcolor. unfold Tile. split.
  - intros Hex. rewrite (check_tiles_mismatch _ _ _ Hex). reflexivity.
  - intros Hall ->. rewrite (check_tiles_same _ _ _ Hall). reflexivity.
Qed.


(** X24.  The grid keeps the tiles inside the canvas and apart.  For
    greyscale tiles of shape (h, w), [columns >= 1] and [sep >= 0], every
    pasted tile lies within the canvas with a margin of [sep] on each side,
    and two different tiles never overlap. *)
Theorem Tile_grid_disjoint :
  forall (tiles : list Image) (columns sep h w : Z) (bgcolor : Q) (dt : string),
    tiles <> [] -> uniform h w dt tiles -> 1 <= columns -> 0 <= sep ->
    exists cv,
      Tile tiles columns sep bgcolor = (Returns (cv, []), []) /\
      (forall i t u v,
          nth_error (pasted cv) i = Some (t, (u, v)) ->
          sep <= u /\ u + w + sep <= canvas_width cv /\
          sep <= v /\ v + h + sep <= canvas_height cv) /\
      (forall i j ti tj ui vi uj vj,
          i <> j ->
          nth_error (pasted cv) i = Some (ti, (ui, vi)) ->
          nth_error (pasted cv) j = Some (tj, (uj, vj)) ->
          ui + w + sep <= uj \/ uj + w + sep <= ui \/
          vi + h + sep <= vj \/ vj + h + sep <= vi).
Proof.
  intros tiles columns sep h w bgcolor dt Hne Hu Hc Hsep.
  pose proof (Tile_returns columns h w sep Hc dt tiles bgcolor Hne Hu) as Hr.
  cbv zeta in Hr.
  set (n := Z.of_nat (List.length tiles)) in *.
  set (nrows := (n + columns - 1) / columns) in *.
  assert (Hhw : 0 <= h /\ 0 <= w).
  { destruct tiles as [| t0 ?]; [congruence |].
    pose proof (Forall_inv Hu) as [Hs _]. unfold im_shape, shape in Hs.
    destruct (planes (A t0)); inversion Hs. lia. }
  assert (Hn : n <= nrows * columns).
  { pose proof (Z.div_mod (n + columns - 1) columns ltac:(lia)) as Hdm.
    pose proof (Z.mod_pos_bound (n + columns - 1) columns ltac:(lia)) as Hb.
    unfold nrows. nia. }
  assert (Hpos : forall i t u v,
             nth_error (place columns h w sep 0 tiles) i = Some (t, (u, v)) ->
             Z.of_nat i < n /\
             u = sep + (Z.of_nat i mod columns) * (w + sep) /\
             v = sep + (Z.of_nat i / columns) * (h + sep)).
  { intros i t u v Hi.
    assert (Hlt : (i < List.length tiles)%nat).
    { rewrite <- (length_place columns h w sep 0). apply nth_error_Some.
      congruence. }
    destruct (nth_error tiles i) as [t' |] eqn:Ht;
      [| apply nth_error_None in Ht; lia].
    rewrite (nth_error_place columns h w sep 0 tiles i t' Ht) in Hi.
    unfold tile_position in Hi. inversion Hi; subst. unfold n.
    repeat split. lia. }
  eexists. split; [exact Hr |].
  cbn [add_pastes Constant canvas_width canvas_height pasted app]. split.
  - intros i t u v Hi. destruct (Hpos i t u v Hi) as (Hlt & -> & ->).
    pose proof (Z.mod_pos_bound (Z.of_nat i) columns ltac:(lia)) as Hm.
    pose proof (Z.div_mod (Z.of_nat i) columns ltac:(lia)) as Hdm.
    assert (0 <= Z.of_nat i / columns) by (apply Z.div_pos; lia).
    assert (Z.of_nat i / columns < nrows) by nia.
    repeat split; nia.
  - intros i j ti tj ui vi uj vj Hij Hi Hj.
    destruct (Hpos i ti ui vi Hi) as (_ & -> & ->).
    destruct (Hpos j tj uj vj Hj) as (_ & -> & ->).
    pose proof (Z.mod_pos_bound (Z.of_nat i) columns ltac:(lia)) as Hmi.
    pose proof (Z.mod_pos_bound (Z.of_nat j) columns ltac:(lia)) as Hmj.
    pose proof (Z.div_mod (Z.of_nat i) columns ltac:(lia)) as Hdi.
    pose proof (Z.div_mod (Z.of_nat j) columns ltac:(lia)) as Hdj.
    set (ci := Z.of_nat i mod columns) in *.
    set (cj := Z.of_nat j mod columns) in *.
    set (ri := Z.of_nat i / columns) in *.
    set (rj := Z.of_nat j / columns) in *.
    destruct (Z.lt_total ci cj) as [Hlt | [Heq | Hgt]].
    + left. nia.
    + destruct (Z.lt_total ri rj) as [Hlt | [Heq' | Hgt]].
      * right; right; left. nia.
      * exfalso. apply Hij. apply Nat2Z.inj. nia.
      * right; right; right. nia.
    + right; left. nia.
Qed.

Section RoiFacts.

Variable frames : Image -> list Image.

Lemma roi_loop_bound (l r t b : Z) (ims : list Image) :
  roi_loop (Some l, Some r, Some t, Some b) ims
  = (Returns (map (fun im => index2 (image im) (range t b) (range l r)) ims),
     []).
Proof.
  induction ims as [| im rest IH]; [reflexivity |].
  cbn [roi_loop load_local map]. rewrite !bind_ret, IH, bind_pure. reflexivity.
Qed.

(** X25.  The errors of [roi].  Without [reg] it raises ValueError.  With
    both [reg] and [wh] it raises NameError, since [argcheck] is not a name
    of the module.  With a list [reg] of a length other than 2 and 4, and
    an image that yields at least one frame, it raises UnboundLocalError:
    no bound was ever assigned. *)
Theorem roi_errors :
  forall (self : Image) (reg : option reg_arg) (wh : option (list Z)),
    (reg = None -> roi frames self reg wh = (Raises ValueError, [])) /\
    (reg <> None -> wh <> None ->
     roi frames self reg wh = (Raises NameError, [])) /\
    (forall l,
        reg = Some (RegSeq l) -> wh = None ->
        List.length l <> 2%nat -> List.length l <> 4%nat ->
        frames self <> [] ->
        roi frames self reg wh = (Raises UnboundLocalError, [])).
Proof.
  intros self reg wh. unfold roi, roi_bounds. repeat split.
  - intros ->. reflexivity.
  - intros Hr Hw. destruct reg; [| congruence]. destruct wh; [| congruence].
    reflexivity.
  - intros l -> -> H2 H4 Hf.
    destruct l as [| ? [| ? [| ? [| ? [| ? ?]]]]]; cbn in H2, H4; try lia;
      rewrite bind_ret; destruct (frames self); try congruence; reflexivity.
Qed.

(** X26.  The region [roi] extracts.  For [reg] the 2x2 array
    [[l, r], [t, b]] and no [wh], [roi] hands the constructor one array per
    frame, with the colour order of the image; when the bounds lie in the
    frame, with [0 <= l <= r <= width] and [0 <= t <= b <= height], the
    array is the window of [b - t] rows and [r - l] columns whose top-left
    pixel is the frame's pixel at row [t], column [l]. *)
Theorem roi_window :
  forall (self : Image) (l r t b : Z),
    exists out,
      roi frames self (Some (Reg2x2 l r t b)) None
      = (Returns (out, colororder self), []) /\
      List.length out = List.length (frames self) /\
      forall n im,
        nth_error (frames self) n = Some im ->
        exists a,
          nth_error out n = Some a /\
          planes a = planes (A im) /\
          (0 <= l <= r -> r <= width im -> 0 <= t <= b -> b <= height im ->
           Z.of_nat (rows a) = b - t /\ Z.of_nat (cols a) = r - l /\
           forall i j k,
             px a i j k = px (A im) (Z.to_nat t + i) (Z.to_nat l + j) k).
Proof.
  intros self l r t b. unfold roi, roi_bounds.
  rewrite bind_ret, roi_loop_bound, bind_pure.
  eexists. split; [reflexivity |]. split; [apply length_map |].
  intros n im Hn. eexists. split; [apply map_nth_error; exact Hn |].
  unfold index2, image.
  destruct (slice_indices (rows (A im)) (range t b)) as [r0 nr] eqn:Er.
  destruct (slice_indices (cols (A im)) (range l r)) as [c0 nc] eqn:Ec.
  split; [reflexivity |].
  intros Hl Hr Ht Hb. unfold height, width in *.
  rewrite slice_indices_inside in Er, Ec by lia.
  inversion Er; inversion Ec; subst. cbn [rows cols px].
  repeat split; lia.
Qed.

End RoiFacts.

(* ===================================================================== *)
(** * The further properties at concrete inputs *)
(* ===================================================================== *)

Lemma draw_box_greyscale_no_fill_witness :
  draw_box Samples.no_color_bgr Samples.grey_2x2 Samples.grey_level_box
  = (Raises TypeError, []).
Proof.
  apply (draw_box_greyscale_no_fill Samples.no_color_bgr Samples.grey_2x2
           Samples.grey_level_box); reflexivity.
Defined.

Lemma draw_box_rectangle_witness :
  log (draw_box Samples.no_color_bgr Samples.colour_4x6 Samples.red_box)
  = [Rectangle Samples.colour_4x6 (1, 2) (2, 4) (ColSeq [0; 0; 255]%Q) 1].
Proof.
  exact (draw_box_rectangle Samples.no_color_bgr Samples.colour_4x6
           Samples.red_box [255; 0; 0]%Q ((1, 2), (2, 4))
           (log (draw_box Samples.no_color_bgr Samples.colour_4x6
                          Samples.red_box))
           eq_refl eq_refl).
Defined.



Lemma trim_window_witness :
  exists out,
    trim (Samples.colour_image 4 6 0) 1 2 1 1 = (Returns out, []) /\
    height out = 2 /\ width out = 3.
Proof.
  destruct (trim_window (Samples.colour_image 4 6 0) 1 2 1 1)
    as (out & Hrun & Hh & Hw & _);
    try (unfold height, width; simpl; lia).
  exists out. repeat split; assumption.
Defined.

Lemma trim_pad_round_trip_witness :
  exists padded out,
    pad Samples.grey_2x2_image 1 2 3 4 9 = (Returns padded, []) /\
    trim padded 1 2 3 4 = (Returns out, []) /\
    height out = 2 /\ width out = 2.
Proof.
  destruct (trim_pad_round_trip Samples.grey_2x2_image 1 2 3 4 9 eq_refl)
    as (padded & out & Hpad & Htrim & Hh & Hw & _); try lia.
  exists padded, out. repeat split; assumption.
Defined.

Lemma trim_trim_witness :
  exists mid out both,
    trim (Samples.colour_image 4 6 0) 1 1 0 1 = (Returns mid, []) /\
    trim mid 1 0 1 0 = (Returns out, []) /\
    trim (Samples.colour_image 4 6 0) 2 1 1 1 = (Returns both, []) /\
    height out = height both /\ width out = width both.
Proof.
  destruct (trim_trim (Samples.colour_image 4 6 0) 1 1 0 1 1 0 1 0)
    as (mid & out & both & H1 & H2 & H3 & Hh & Hw & _);
    try (unfold height, width; simpl; lia).
  exists mid, out, both. repeat split; assumption.
Defined.



Lemma samesize_returned_width_witness :
  exists out,
    result (samesize Samples.no_resample Samples.no_smooth
              (Samples.colour_image 4 8 0) (Samples.colour_image 4 5 0) (1 # 2))
    = Returns out /\
    (width out = width (Samples.colour_image 4 5 0) \/ width out = 0).
Proof.
  eexists. split; [reflexivity |].
  apply (proj2 (samesize_returned_width Samples.no_resample Samples.no_smooth
                  (Samples.colour_image 4 8 0) (Samples.colour_image 4 5 0) _
                  (1 # 2) eq_refl)).
Defined.

Lemma hcat_greyscale_witness :
  exists combo u,
    hcat Samples.first_type
         (Listed [Samples.grey_image [[5]]; Samples.grey_image [[6]; [7]]])%Q 9
    = (Returns (combo, u), []) /\
    width combo = 2 /\ List.length u = 2%nat.
Proof.
  destruct (hcat_greyscale Samples.first_type
              [Samples.grey_image [[5]]; Samples.grey_image [[6]; [7]]]%Q 9)
    as (combo & u & Hrun & _ & _ & Hw & Hu & _).
  - discriminate.
  - repeat constructor.
  - exists combo, u. repeat split; assumption.
Defined.

Lemma hcat_colour_raises_witness :
  hcat Samples.first_type
       (Listed [Samples.grey_2x2_image; Samples.colour_image 2 2 0]) 0
  = (Raises ValueError, []).
Proof.
  apply (hcat_colour_raises Samples.first_type
           [Samples.grey_2x2_image; Samples.colour_image 2 2 0] 0).
  apply Exists_cons_tl. apply Exists_cons_hd. reflexivity.
Defined.


Lemma Tile_grid_disjoint_witness :
  exists cv,
    Tile Samples.three_tiles 2 2 0 = (Returns (cv, []), []) /\
    forall i t u v,
      nth_error (pasted cv) i = Some (t, (u, v)) ->
      2 <= u /\ u + 1 + 2 <= canvas_width cv /\
      2 <= v /\ v + 1 + 2 <= canvas_height cv.
Proof.
  destruct (Tile_grid_disjoint Samples.three_tiles 2 2 1 1 0%Q "uint8")
    as (cv & Hrun & Hin & _).
  - discriminate.
  - repeat constructor.
  - lia.
  - lia.
  - exists cv. split; assumption.
Defined.

Lemma draw_box_needs_tr_or_wh_witness :
  draw_box Samples.no_color_bgr Samples.colour_4x6
    {| bbox := None; bl := Some (1, 1)%Q; tl := None; br := Some (3, 0)%Q;
       tr := None; wh := None; centre := None;
       color := ColSeq [255; 0; 0]%Q; fillcolor := ColNone; alpha := None;
       thickness := 1 |}
  = (Raises TypeError, []).
Proof.
  apply (draw_box_needs_tr_or_wh Samples.no_color_bgr Samples.colour_4x6);
    reflexivity.
Defined.
